(** * FIX message formatter: a shallow embedding of [parse-fix-msg.py]

    The program reads a data dictionary (an XML tree), then renders every
    line of an input file as a block of fixed-width field lines closed by a
    line of periods.  Every method of [FIXParser] wraps its body in
    [try: ... except Exception as e: print(...)]; the embedding keeps the
    exceptions explicit so that the extent of each [try] is visible.

    Characters are the 8-bit [ascii] of the Standard Library, read as the
    code points 0..255; [len] counts characters. *)

From Stdlib Require Import String Ascii List ZArith Lia Bool.
Import ListNotations.
Local Open Scope list_scope.
Local Open Scope string_scope.

(** ** Python values and built-ins used by the program *)

Module Py.

(** The exceptions the program can meet.  The text of an exception is the
    library's and is not modelled; [AttributeError] keeps the attribute
    that was looked up on [None].  [ParseError] and [OSError] are what
    [ET.parse] raises on a malformed or a missing document. *)
Inductive exn : Type :=
| AttributeError (attribute : string)
| TypeError
| IndexError
| UnboundLocalError
| SyntaxError
| KeyError
| ParseError
| OSError.

Inductive outcome (A : Type) : Type :=
| Ret (a : A)
| Raise (e : exn).
Arguments Ret {A} a.
Arguments Raise {A} e.

Definition obind {A B : Type} (m : outcome A) (k : A -> outcome B) : outcome B :=
  match m with
  | Ret a => k a
  | Raise e => Raise e
  end.

Definition nl : string := String "010"%char EmptyString.

(** [len(s)] *)
Definition len (s : string) : Z := Z.of_nat (String.length s).

(** [len(x)] where [x] may be [None] *)
Definition len_of (x : option string) : outcome Z :=
  match x with
  | Some s => Ret (len s)
  | None => Raise TypeError
  end.

(** an operand of [+] between strings: [None] is a [TypeError] *)
Definition as_str (x : option string) : outcome string :=
  match x with
  | Some s => Ret s
  | None => Raise TypeError
  end.

(** [c in s] for a one-character [c] *)
Fixpoint contains (c : ascii) (s : string) : bool :=
  match s with
  | EmptyString => false
  | String a rest => Ascii.eqb a c || contains c rest
  end.

(** [s.split(sep)] for a one-character separator: never the empty list *)
Fixpoint split (sep : ascii) (s : string) : list string :=
  match s with
  | EmptyString => [EmptyString]
  | String a rest =>
      if Ascii.eqb a sep then EmptyString :: split sep rest
      else match split sep rest with
           | [] => [String a EmptyString]
           | piece :: pieces => String a piece :: pieces
           end
  end.

(** [sep.join(pieces)], the inverse used to state what [split] does *)
Fixpoint join (sep : ascii) (pieces : list string) : string :=
  match pieces with
  | [] => EmptyString
  | [piece] => piece
  | piece :: more => piece ++ String sep (join sep more)
  end.

(** [l[i]] *)
Definition index (l : list string) (i : nat) : outcome string :=
  match nth_error l i with
  | Some s => Ret s
  | None => Raise IndexError
  end.

(** [str.isspace] on one character, for the code points below 256 *)
Definition isspace (c : ascii) : bool :=
  let n := nat_of_ascii c in
  (((9 <=? n) && (n <=? 13)) || ((28 <=? n) && (n <=? 32))
   || (n =? 133) || (n =? 160))%nat.

Fixpoint lstrip (s : string) : string :=
  match s with
  | EmptyString => EmptyString
  | String a rest => if isspace a then lstrip rest else s
  end.

Fixpoint rstrip (s : string) : string :=
  match s with
  | EmptyString => EmptyString
  | String a rest =>
      match rstrip rest with
      | EmptyString => if isspace a then EmptyString else String a EmptyString
      | kept => String a kept
      end
  end.

(** [s.strip()] *)
Definition strip (s : string) : string := rstrip (lstrip s).

(** [for i in range(n): acc += piece]; [range] of a negative number is empty *)
Fixpoint add_times (n : nat) (piece acc : string) : string :=
  match n with
  | O => acc
  | S k => add_times k piece (acc ++ piece)
  end.

Definition for_range_add (n : Z) (piece acc : string) : string :=
  add_times (Z.to_nat n) piece acc.

(** [s[0] == c] on a string known to be non-empty *)
Definition starts_with (c : ascii) (s : string) : bool :=
  match s with
  | EmptyString => false
  | String a _ => Ascii.eqb a c
  end.

End Py.
Import Py.

Notation "x <- m ;; k" := (obind m (fun x => k))
  (at level 61, m at next level, right associativity).

(** ** The part of [xml.etree.ElementTree] the program uses *)

Module ET.

#[warnings="-register-all"] Inductive Element : Type :=
| Elem (tag : string) (attrib : list (string * string)) (children : list Element).

Definition tag (e : Element) : string := let 'Elem t _ _ := e in t.
Definition attrib (e : Element) : list (string * string) := let 'Elem _ a _ := e in a.
Definition children (e : Element) : list Element := let 'Elem _ _ c := e in c.

(** [e.get(key)]: [None] when the attribute is absent *)
Fixpoint lookup (key : string) (a : list (string * string)) : option string :=
  match a with
  | [] => None
  | (k, v) :: rest => if String.eqb k key then Some v else lookup key rest
  end.

Definition get (e : Element) (key : string) : option string := lookup key (attrib e).

(** [x.get(key)] where [x] may be [None] *)
Definition get_of (x : option Element) (key : string) : outcome (option string) :=
  match x with
  | Some e => Ret (get e key)
  | None => Raise (AttributeError "get")
  end.

Definition has_attr (key value : string) (e : Element) : bool :=
  match get e key with
  | Some v => String.eqb v value
  | None => false
  end.

(** [x.find("./t")]: the first child whose tag is [t] *)
Definition find_tag (x : option Element) (t : string) : outcome (option Element) :=
  match x with
  | Some e => Ret (List.find (fun c => String.eqb (tag c) t) (children e))
  | None => Raise (AttributeError "find")
  end.

(** The program pastes the value between apostrophes without escaping it:
    the path is [f"./t[@key='{value}']"].  An apostrophe inside the value
    closes the literal early, and what follows it becomes part of the path.

    - When the value has no [']'], the predicate runs to the end of the path
      with tokens after its literal; ElementPath rejects it with
      [SyntaxError] (invalid predicate).
    - When the value has a [']'] as well, what follows the apostrophe can be
      a path of its own: ElementPath may reject it with an exception, find
      nothing, or find an element (with [1'][@description='Buy] as value the
      path is [./value[@enum='1'][@description='Buy']]).  The outcome is
      left open, as a function of the element searched, the tag, the
      attribute and the value. *)
Definition path_quirk : Type :=
  Element -> string -> string -> string -> outcome (option Element).

(** [x.find(f"./t[@key='{value}']")]: the first child with tag [t] whose
    attribute [key] equals [value] *)
Definition find_attr (quirk : path_quirk) (x : option Element) (t key value : string)
  : outcome (option Element) :=
  match x with
  | None => Raise (AttributeError "find")
  | Some e =>
      if contains "'" value then
        if contains "]" value then quirk e t key value
        else Raise SyntaxError
      else Ret (List.find (fun c => String.eqb (tag c) t && has_attr key value c)
                          (children e))
  end.

(** [if x:] on an element or [None]: an element is true when it has
    children ([len(x) != 0]) *)
Definition truth (x : option Element) : bool :=
  match x with
  | Some e => negb (Nat.eqb (List.length (children e)) 0)
  | None => false
  end.

(** [for c in x]: the children, in document order *)
Definition iter (x : option Element) : list Element :=
  match x with
  | Some e => children e
  | None => []
  end.

End ET.
Import ET.

(** ** The output file and the console *)

Record world : Type := mkWorld {
  output_file : list string;          (* the strings written, in order *)
  stdout : list (string * exn)        (* printed: message prefix, and [str(e)] *)
}.

Definition start : world := mkWorld [] [].

Definition write (s : string) (w : world) : world :=
  mkWorld (output_file w ++ [s])%list (stdout w).

Definition print (prefix : string) (e : exn) (w : world) : world :=
  mkWorld (output_file w) (stdout w ++ [(prefix, e)])%list.

(** ** class FIXParser *)

Definition tag_column_length : Z := 5.
Definition field_name_column_length : Z := 23.
Definition trailing_column_length : Z := 65.
Definition msg_separator_length : Z := 100.

(** the two flags of [self.args] the formatter reads *)
Record Args : Type := mkArgs { hide_enums : bool; row_lines : bool }.

Definition build_row_separator : string :=
  let s := "" in
  let s := for_range_add tag_column_length "-" s in
  let s := s ++ "-+-" in
  let s := for_range_add field_name_column_length "-" s in
  let s := s ++ "-+-" in
  let s := for_range_add trailing_column_length "-" s in
  s ++ nl.

Definition build_msg_separator : string :=
  let s := "" in
  let s := for_range_add msg_separator_length "." s in
  s ++ nl.

(** [init_fields]: [document] is what [ET.parse(path).getroot()] gives, the
    root element or an exception.  The loop keeps the last child named
    [fields]; [self.fields] stays [None] when there is none. *)
Definition init_fields (document : outcome Element) (w : world)
  : option Element * world :=
  match document with
  | Raise e => (None, print "init_fields Exception :- " e w)
  | Ret root =>
      (fold_left (fun fields child =>
                    if String.eqb (tag child) "fields" then Some child else fields)
                 (children root) None, w)
  end.

(** the last loop of [get_enum_str]: [for enum in field: enums += ...] *)
Fixpoint list_enums (entries : list Element) (enums : string) : outcome string :=
  match entries with
  | [] => Ret enums
  | enum :: rest =>
      code <- as_str (get enum "enum") ;;
      description <- as_str (get enum "description") ;;
      list_enums rest (enums ++ code ++ " : " ++ description ++ ", ")
  end.

Definition no_matching_enum : string := " (ERROR: NO MATCHING ENUM. CHECK DICTIONARY)".

Section FIXParser.

Variable quirk : path_quirk.           (* the library, on unescaped apostrophes *)
Variable args : Args.
Variable fields : option Element.      (* self.fields *)
Variable row_separator : string.       (* self.row_separator *)
Variable msg_separator : string.       (* self.msg_separator *)

(** the body of the [try] of [get_enum_str] *)
Definition get_enum_str_try (tag_number tag_value : string) : outcome string :=
  let enums := "" in
  field <- find_attr quirk fields "field" "number" tag_number ;;
  firstVal <- find_tag field "value" ;;
  enums <- match firstVal with
           | Some _ =>
               meaning <- find_attr quirk field "value" "enum" tag_value ;;
               match meaning with
               | Some m =>
                   description <- as_str (get m "description") ;;
                   Ret (enums ++ " (" ++ description ++ ")")
               | None => Ret (enums ++ no_matching_enum)
               end
           | None => Ret enums
           end ;;
  if truth field then
    let enum_padding := (trailing_column_length - len enums)%Z in
    let enums := for_range_add enum_padding " " enums in
    list_enums (iter field) enums
  else Ret enums.

(** [get_enum_str]: the handler prints and the method returns [None] *)
Definition get_enum_str (tag_number tag_value : string) (w : world)
  : option string * world :=
  match get_enum_str_try tag_number tag_value with
  | Ret enums => (Some enums, w)
  | Raise e => (None, print "get_enum_str Exception :- " e w)
  end.

(** the field line of [make_readable] *)
Definition field_line (tag_number tag_name tag_value enums : string) : string :=
  let padding1_len := (tag_column_length - len tag_number)%Z in
  let padding1 := if (0 <? padding1_len)%Z then for_range_add padding1_len " " "" else "" in
  let padding2_len := (field_name_column_length - len tag_name)%Z in
  let padding2 := if (0 <? padding2_len)%Z then for_range_add padding2_len " " "" else "" in
  tag_number ++ padding1 ++ " | " ++ tag_name ++ padding2 ++ " | "
             ++ tag_value ++ enums ++ nl.

(** one pass of the [for] loop of [make_readable], from the assignment of
    [tag_name] to the end of the body *)
Definition render (tag_number : string) (pair : list string) (w : world)
  : outcome unit * world :=
  match (found <- find_attr quirk fields "field" "number" tag_number ;;
         tag_name <- get_of found "name" ;;
         tag_value <- index pair 1 ;;
         _ <- len_of tag_name ;;
         Ret (tag_name, tag_value)) with
  | Raise e => (Raise e, w)
  | Ret (tag_name, tag_value) =>
      let (enums, w) :=
        if negb (hide_enums args) then get_enum_str tag_number tag_value w
        else (Some "", w) in
      match (name <- as_str tag_name ;;
             enums <- as_str enums ;;
             Ret (field_line tag_number name tag_value enums)) with
      | Raise e => (Raise e, w)
      | Ret line =>
          let w := write line w in
          (Ret tt, if row_lines args then write row_separator w else w)
      end
  end.

(** the [for] loop of [make_readable].  The local [tag_number] is carried
    along ([None] while unbound) because the handler formats it. *)
Fixpoint for_tags (tags : list string) (tag_number : option string) (w : world)
  : outcome unit * option string * world :=
  match tags with
  | [] => (Ret tt, tag_number, w)
  | tag :: rest =>
      let pair := split "=" tag in
      if (List.length pair =? 1)%nat then for_tags rest tag_number w
      else
        match index pair 0 with
        | Raise e => (Raise e, tag_number, w)
        | Ret number =>
            match render number pair w with
            | (Raise e, w') => (Raise e, Some number, w')
            | (Ret _, w') => for_tags rest (Some number) w'
            end
        end
  end.

(** [make_readable]: an exception that reaches the handler is printed with
    the current [tag_number]; were [tag_number] unbound, the handler
    itself would raise. *)
Definition make_readable (tags : list string) (w : world) : outcome unit * world :=
  let w := if row_lines args then write row_separator w else w in
  match for_tags tags None w with
  | (Ret _, _, w') => (Ret tt, w')
  | (Raise e, Some number, w') =>
      (Ret tt, print ("tag number " ++ number ++ " readable Exception :- ") e w')
  | (Raise _, None, w') => (Raise UnboundLocalError, w')
  end.

(** the delimiter of [line.split(...)]: the one character U+0001 *)
Definition delimiter : ascii := "001"%char.

(** the [while line:] loop of [parse_input_file].  [input_file] holds the
    lines [readline] has yet to return; at the end of the file [readline]
    returns the empty string. *)
Fixpoint while_line (input_file : list string) (w : world) : outcome unit * world :=
  match input_file with
  | [] => (Ret tt, w)
  | line :: rest =>
      if String.eqb line "" then (Ret tt, w)
      else
        let line := strip line in
        if String.eqb line "" || starts_with "#" line then while_line rest w
        else
          let tags := split delimiter line in
          match make_readable tags w with
          | (Raise e, w') => (Raise e, w')
          | (Ret _, w') => while_line rest (write msg_separator w')
          end
  end.

(** [parse_input_file], for files that open and are read and written
    without error: [input_file] is what the calls of [readline] return, and
    every [write] succeeds.  (In the source a failure of [open], [readline]
    or [write] reaches the handler as well, which is outside this model.)
    The handler evaluates [str + tags], a [TypeError], so an exception that
    reaches it ends the program. *)
Definition parse_input_file (input_file : list string) (w : world)
  : outcome unit * world :=
  match while_line input_file w with
  | (Ret _, w') => (Ret tt, w')
  | (Raise _, w') => (Raise TypeError, w')
  end.

End FIXParser.

(** [main], after the arguments have been parsed *)
Definition main (quirk : path_quirk) (args : Args) (document : outcome Element)
           (input_file : list string) : outcome unit * world :=
  let row_separator := build_row_separator in
  let msg_separator := build_msg_separator in
  let (fields, w) := init_fields document start in
  parse_input_file quirk args fields row_separator msg_separator input_file w.

(** ** The constructor *)

(** what [parser.parse_args()] returns: the three paths ([None] when the
    option is not given) and the two flags *)
Record Namespace : Type := mkNamespace {
  input : option string;
  output : option string;
  data_dictionary : option string;
  flags : Args
}.

(** how the constructor ends: [sys.exit] raises [SystemExit], which the
    handler ([except Exception]) does not catch *)
Inductive startup : Type :=
| SystemExit (printed : string) (status : Z)
| Constructed (args : Namespace).

(** [x == "" or x is None] *)
Definition not_given (x : option string) : bool :=
  match x with
  | None => true
  | Some s => String.eqb s ""
  end.

(** [FIXParser.__init__], from the value of [parser.parse_args()] on *)
Definition FIXParser_init (ns : Namespace) : startup :=
  if not_given (input ns)
  then SystemExit "Error: specify input file path with --input" 1
  else if not_given (output ns)
  then SystemExit "Error: specify output file path with --output" 1
  else if not_given (data_dictionary ns)
  then SystemExit "Error: specify data dictionary file path with --dd" 1
  else Constructed ns.

(** ** Reference functions used to state the results *)

(** [n] spaces *)
Fixpoint spaces (n : nat) : string :=
  match n with
  | O => EmptyString
  | S k => String " " (spaces k)
  end.

(** [s.ljust(width)]: [s] followed by spaces up to [width] characters,
    [s] itself when it is already that long *)
Definition ljust (width : nat) (s : string) : string :=
  s ++ spaces (width - String.length s).

(** [n] copies of the character [c] *)
Fixpoint copies (n : nat) (c : ascii) : string :=
  match n with
  | O => EmptyString
  | S k => String c (copies k c)
  end.

(** the listing of an enum set given as (code, description) pairs *)
Fixpoint enum_listing (entries : list (string * string)) : string :=
  match entries with
  | [] => EmptyString
  | (code, description) :: rest =>
      code ++ " : " ++ description ++ ", " ++ enum_listing rest
  end.

(** a [value] child of a field that declares the entry (code, description) *)
Definition declares (c : Element) (entry : string * string) : Prop :=
  tag c = "value" /\ get c "enum" = Some (fst entry)
  /\ get c "description" = Some (snd entry).

(** the strings a rendering may write besides the message separator *)
Definition is_field_line (s : string) : Prop :=
  exists tag_number tag_name tag_value enums,
    s = field_line tag_number tag_name tag_value enums.

(** what follows a field line in the file: the row separator when
    [row_lines] is set *)
Definition rule (args : Args) (row_separator : string) : list string :=
  if row_lines args then [row_separator] else [].

(** the lines of a block, each followed by the rule *)
Definition ruled (args : Args) (row_separator : string) (lines : list string)
  : list string :=
  flat_map (fun line => line :: rule args row_separator) lines.

(** what one input line adds to the output when no field can be resolved *)
Definition bare_block (args : Args) (row_separator msg_separator : string) : list string :=
  (rule args row_separator ++ [msg_separator])%list.

(** the input lines that are rendered: up to the end of the file, without
    the blank lines and the comments *)
Fixpoint rendered_lines (input_file : list string) : list string :=
  match input_file with
  | [] => []
  | line :: rest =>
      if String.eqb line "" then []
      else if String.eqb (strip line) "" || starts_with "#" (strip line)
           then rendered_lines rest
           else strip line :: rendered_lines rest
  end.

(** [w] followed by what [d] holds: the writes and prints of [d] appended
    to those of [w] *)
Definition extend (w d : world) : world :=
  mkWorld (output_file w ++ output_file d)%list (stdout w ++ stdout d)%list.

(** the test of the line loop: neither blank nor a comment *)
Definition is_message (line : string) : bool :=
  negb (String.eqb (strip line) "" || starts_with "#" (strip line)).

(** how many times [s] was written *)
Definition times_written (s : string) (written : list string) : nat :=
  count_occ string_dec written s.

(** how many times the character [c] occurs in [s] *)
Fixpoint occurrences (c : ascii) (s : string) : nat :=
  match s with
  | EmptyString => 0
  | String a rest => (if Ascii.eqb a c then 1 else 0) + occurrences c rest
  end.

(** what a line prints when there is no field table: nothing when no token
    has an [=], and otherwise one message, for the tag number of the first
    token that has one *)
Definition first_pair_report (line : string) : list (string * exn) :=
  match List.find (contains "=") (split delimiter line) with
  | Some token =>
      [("tag number " ++ hd "" (split "=" token) ++ " readable Exception :- ",
        AttributeError "find")]
  | None => []
  end.

(** what [init_fields] prints *)
Definition load_report (document : outcome Element) : list (string * exn) :=
  match document with
  | Raise e => [("init_fields Exception :- ", e)]
  | Ret _ => []
  end.

(** ** A small dictionary and input for the examples *)

Definition sample_begin : Element :=
  Elem "field" [("number", "8"); ("name", "BeginString")] [].

Definition sample_side : Element :=
  Elem "field" [("number", "54"); ("name", "Side")]
       [Elem "value" [("enum", "1"); ("description", "Buy")] [];
        Elem "value" [("enum", "2"); ("description", "Sell")] []].

Definition sample_fields : Element := Elem "fields" [] [sample_begin; sample_side].

Definition sample_document : Element :=
  Elem "fix" [] [Elem "header" [] []; sample_fields].

(** a field whose second entry has no description *)
Definition sample_incomplete : Element :=
  Elem "field" [("number", "40"); ("name", "OrdType")]
       [Elem "value" [("enum", "1"); ("description", "Market")] [];
        Elem "value" [("enum", "2")] []].

(** the token list [tokens] as one line of the input file *)
Definition wire (tokens : list string) : string := join delimiter tokens ++ nl.

Definition sample_args : Args := mkArgs false false.

(** for the examples: every path broken by an apostrophe is rejected *)
Definition sample_quirk : path_quirk := fun _ _ _ _ => Raise SyntaxError.

(** the file once the pair [8=FIX] has been rendered *)
Definition sample_written : world :=
  write (field_line "8" "BeginString" "FIX" "") start.

(** a document from which [init_fields] gets no field table: unparsable, or
    without a [fields] child *)
Definition unusable (document : outcome Element) : Prop :=
  match document with
  | Raise _ => True
  | Ret root => Forall (fun child => tag child <> "fields") (children root)
  end.

(** ** Strings *)

Lemma append_nil_r (s : string) : s ++ "" = s.
Proof. induction s as [|a s IH]; simpl; [reflexivity | now rewrite IH]. Qed.

Lemma append_assoc (a b c : string) : (a ++ b) ++ c = a ++ b ++ c.
Proof. induction a as [|x a IH]; simpl; [reflexivity | now rewrite IH]. Qed.

Lemma length_append (a b : string) :
  String.length (a ++ b) = String.length a + String.length b.
Proof. induction a as [|x a IH]; simpl; [reflexivity | now rewrite IH]. Qed.

Lemma contains_append (c : ascii) (a b : string) :
  contains c (a ++ b) = contains c a || contains c b.
Proof.
  induction a as [|x a IH]; simpl; [reflexivity|].
  rewrite IH. now rewrite orb_assoc.
Qed.

Lemma add_times_acc (n : nat) (piece acc : string) :
  add_times n piece acc = acc ++ add_times n piece "".
Proof.
  revert acc. induction n as [|n IH]; intros acc; simpl.
  - now rewrite append_nil_r.
  - rewrite (IH (acc ++ piece)), (IH piece). now rewrite append_assoc.
Qed.

Lemma add_times_char (n : nat) (c : ascii) :
  add_times n (String c "") "" = copies n c.
Proof.
  induction n as [|n IH]; simpl; [reflexivity|].
  rewrite add_times_acc, IH. reflexivity.
Qed.

Lemma spaces_copies (n : nat) : spaces n = copies n " ".
Proof. induction n as [|n IH]; simpl; [reflexivity | now rewrite IH]. Qed.

Lemma length_spaces (n : nat) : String.length (spaces n) = n.
Proof. induction n as [|n IH]; simpl; [reflexivity | now rewrite IH]. Qed.

(** the padding loop of the program is [ljust] *)
Lemma for_range_add_spaces (width : Z) (s : string) :
  for_range_add (width - len s) " " s = ljust (Z.to_nat width) s.
Proof.
  unfold for_range_add, ljust, len.
  rewrite add_times_acc, add_times_char, <- spaces_copies.
  f_equal. f_equal. lia.
Qed.

Lemma guarded_padding (width : Z) (s : string) :
  s ++ (if (0 <? width - len s)%Z then for_range_add (width - len s) " " "" else "")
  = ljust (Z.to_nat width) s.
Proof.
  unfold ljust, len. destruct (Z.ltb_spec 0 (width - Z.of_nat (String.length s))) as [H|H].
  - unfold for_range_add. rewrite add_times_char, <- spaces_copies.
    f_equal. f_equal. lia.
  - replace (Z.to_nat width - String.length s) with 0 by lia. reflexivity.
Qed.

Lemma ljust_long (width : nat) (s : string) :
  width <= String.length s -> ljust width s = s.
Proof.
  intros H. unfold ljust. replace (width - String.length s) with 0 by lia.
  apply append_nil_r.
Qed.

Lemma ljust_short (width : nat) (s : string) :
  String.length s <= width -> String.length (ljust width s) = width.
Proof.
  intros H. unfold ljust. rewrite length_append, length_spaces. lia.
Qed.

(** ** [split] *)

Lemma split_not_nil (sep : ascii) (s : string) : split sep s <> [].
Proof.
  induction s as [|a s IH]; simpl; [discriminate|].
  destruct (Ascii.eqb a sep); [discriminate|].
  destruct (split sep s); discriminate.
Qed.

Lemma split_without (sep : ascii) (s : string) :
  contains sep s = false -> split sep s = [s].
Proof.
  induction s as [|a s IH]; simpl; [reflexivity|].
  intros H. apply orb_false_iff in H as [Ha Hs].
  rewrite Ha, (IH Hs). reflexivity.
Qed.

Lemma split_with (sep : ascii) (s : string) :
  contains sep s = true -> 2 <= List.length (split sep s).
Proof.
  induction s as [|a s IH]; simpl; [discriminate|].
  destruct (Ascii.eqb a sep) eqn:Ha; simpl.
  - intros _. pose proof (split_not_nil sep s).
    destruct (split sep s); [congruence | simpl; lia].
  - intros H. specialize (IH H).
    destruct (split sep s); simpl in *; lia.
Qed.

Lemma split_single (sep : ascii) (s : string) :
  (List.length (split sep s) =? 1)%nat = negb (contains sep s).
Proof.
  destruct (contains sep s) eqn:H; simpl.
  - apply split_with in H. apply Nat.eqb_neq. lia.
  - now rewrite (split_without _ _ H).
Qed.

Lemma split_append (sep : ascii) (a b : string) :
  contains sep a = false ->
  split sep (a ++ String sep b) = a :: split sep b.
Proof.
  induction a as [|x a IH]; simpl.
  - intros _. now rewrite Ascii.eqb_refl.
  - intros H. apply orb_false_iff in H as [Hx Ha].
    rewrite Hx, (IH Ha). reflexivity.
Qed.

Lemma join_split (sep : ascii) (s : string) : join sep (split sep s) = s.
Proof.
  induction s as [|a s IH]; simpl; [reflexivity|].
  destruct (Ascii.eqb_spec a sep) as [->|Hne].
  - pose proof (split_not_nil sep s) as Hn.
    destruct (split sep s) as [|p ps]; [congruence|].
    simpl in *. now rewrite IH.
  - pose proof (split_not_nil sep s) as Hn.
    destruct (split sep s) as [|p ps]; [congruence|].
    destruct ps; simpl in *; now rewrite <- IH.
Qed.

Lemma split_pieces (sep : ascii) (s : string) :
  Forall (fun piece => contains sep piece = false) (split sep s).
Proof.
  induction s as [|a s IH]; simpl.
  - constructor; [reflexivity | constructor].
  - destruct (Ascii.eqb a sep) eqn:Ha.
    + constructor; [reflexivity | exact IH].
    + destruct (split sep s) as [|p ps]; simpl.
      * constructor; [simpl; now rewrite Ha | constructor].
      * inversion IH as [|? ? Hp Hps]; subst.
        constructor; [simpl; now rewrite Ha, Hp | exact Hps].
Qed.

Lemma index_split_0 (sep : ascii) (s : string) :
  exists piece, index (split sep s) 0 = Ret piece.
Proof.
  pose proof (split_not_nil sep s) as H. unfold index.
  destruct (split sep s) as [|p ps]; [congruence|]. now exists p.
Qed.

(** ** The rendering loop *)

Section Rendering.

Variable quirk : path_quirk.
Variable args : Args.
Variable fields : option Element.
Variable row_separator : string.

Lemma get_enum_str_output (tag_number tag_value : string) (w : world) :
  output_file (snd (get_enum_str quirk fields tag_number tag_value w))
  = output_file w.
Proof.
  unfold get_enum_str.
  destruct (get_enum_str_try quirk fields tag_number tag_value); reflexivity.
Qed.

(** one pass either raises and writes nothing, or writes one field line
    and the rule *)
Lemma render_cases (tag_number : string) (pair : list string) (w : world) :
  (exists e w',
      render quirk args fields row_separator tag_number pair w = (Raise e, w')
      /\ output_file w' = output_file w)
  \/ (exists line w',
         render quirk args fields row_separator tag_number pair w = (Ret tt, w')
         /\ is_field_line line
         /\ output_file w' = (output_file w ++ line :: rule args row_separator)%list).
Proof.
  unfold render.
  destruct (find_attr quirk fields "field" "number" tag_number) as [found|e]; simpl;
    [|left; eauto].
  destruct (get_of found "name") as [tag_name|e]; simpl; [|left; eauto].
  destruct (index pair 1) as [tag_value|e]; simpl; [|left; eauto].
  destruct (len_of tag_name) as [n|e]; simpl; [|left; eauto].
  pose proof (get_enum_str_output tag_number tag_value w) as Hout.
  destruct (if negb (hide_enums args)
            then get_enum_str quirk fields tag_number tag_value w
            else (Some "", w)) as [enums w1] eqn:He.
  assert (H1 : output_file w1 = output_file w).
  { destruct (negb (hide_enums args)).
    - rewrite He in Hout. exact Hout.
    - now inversion He. }
  destruct tag_name as [name|]; simpl; [|left; eauto].
  destruct enums as [enums|]; simpl; [|left; eauto].
  right. exists (field_line tag_number name tag_value enums).
  eexists. split; [reflexivity|]. split.
  - now exists tag_number, name, tag_value, enums.
  - unfold rule. destruct (row_lines args); simpl; rewrite H1.
    + now rewrite <- app_assoc.
    + reflexivity.
Qed.

Lemma for_tags_output (tags : list string) (tag_number : option string) (w : world) :
  exists lines,
    Forall is_field_line lines
    /\ output_file (snd (for_tags quirk args fields row_separator tags tag_number w))
       = (output_file w ++ ruled args row_separator lines)%list.
Proof.
  revert tag_number w. induction tags as [|tag rest IH]; intros tag_number w; simpl.
  - exists []. split; [constructor | now rewrite app_nil_r].
  - destruct (List.length (split "=" tag) =? 1)%nat; [apply IH|].
    destruct (index_split_0 "=" tag) as [number ->].
    destruct (render_cases number (split "=" tag) w)
      as [(e & w' & -> & Hw) | (line & w' & -> & Hl & Hw)].
    + exists []. split; [constructor | simpl; now rewrite app_nil_r].
    + destruct (IH (Some number) w') as (lines & Hf & Ho).
      exists (line :: lines). split; [now constructor|].
      rewrite Ho, Hw. unfold ruled; simpl. now rewrite <- app_assoc.
Qed.

(** an exception leaves the loop only after [tag_number] has been bound *)
Lemma for_tags_bound (tags : list string) (tag_number : option string) (w : world) :
  forall e w',
    for_tags quirk args fields row_separator tags tag_number w = (Raise e, None, w') ->
    False.
Proof.
  revert tag_number w. induction tags as [|tag rest IH]; intros tag_number w e w'; simpl.
  - discriminate.
  - destruct (List.length (split "=" tag) =? 1)%nat; [apply IH|].
    destruct (index_split_0 "=" tag) as [number ->].
    destruct (render quirk args fields row_separator number (split "=" tag) w)
      as [[[]|e1] w1].
    + apply IH.
    + discriminate.
Qed.

Lemma for_tags_app (pre rest : list string) (tag_number : option string) (w : world) :
  for_tags quirk args fields row_separator (pre ++ rest) tag_number w =
  match for_tags quirk args fields row_separator pre tag_number w with
  | (Ret _, bound, w') => for_tags quirk args fields row_separator rest bound w'
  | raised => raised
  end.
Proof.
  revert tag_number w. induction pre as [|tag pre IH]; intros tag_number w; simpl.
  - reflexivity.
  - destruct (List.length (split "=" tag) =? 1)%nat; [apply IH|].
    destruct (index (split "=" tag) 0) as [number|e]; [|reflexivity].
    destruct (render quirk args fields row_separator number (split "=" tag) w)
      as [[[]|e1] w1]; [apply IH | reflexivity].
Qed.

(** a token without [=] leaves the loop state as it is *)
Lemma for_tags_skip (tag : string) (rest : list string) (tag_number : option string)
      (w : world) :
  contains "=" tag = false ->
  for_tags quirk args fields row_separator (tag :: rest) tag_number w
  = for_tags quirk args fields row_separator rest tag_number w.
Proof.
  intros H. simpl. now rewrite split_single, H.
Qed.

(** [make_readable] always returns, and its output is the rule (when
    asked for) followed by field lines, each followed by the rule *)
Lemma make_readable_returns (tags : list string) (w : world) :
  exists lines w',
    make_readable quirk args fields row_separator tags w = (Ret tt, w')
    /\ Forall is_field_line lines
    /\ output_file w'
       = (output_file w ++ rule args row_separator
                       ++ ruled args row_separator lines)%list.
Proof.
  unfold make_readable.
  set (w0 := if row_lines args then write row_separator w else w).
  assert (H0 : output_file w0 = (output_file w ++ rule args row_separator)%list).
  { unfold w0, rule.
    destruct (row_lines args); simpl; [reflexivity | now rewrite app_nil_r]. }
  destruct (for_tags_output tags None w0) as (lines & Hf & Ho).
  pose proof (for_tags_bound tags None w0) as Hb.
  destruct (for_tags quirk args fields row_separator tags None w0)
    as [[[[]|e] bound] w1]; simpl in Ho.
  - exists lines, w1. rewrite Ho, H0, <- app_assoc. auto.
  - destruct bound as [number|]; [|exfalso; eapply Hb; reflexivity].
    eexists lines, _. split; [reflexivity|]. split; [exact Hf|].
    simpl. now rewrite Ho, H0, <- app_assoc.
Qed.

End Rendering.

(** the loop sees only the tokens that contain [=] *)
Lemma for_tags_filter (quirk : path_quirk) (args : Args) (fields : option Element)
      (row_separator : string) (tags : list string) (tag_number : option string) (w : world) :
  for_tags quirk args fields row_separator tags tag_number w
  = for_tags quirk args fields row_separator (filter (contains "=") tags) tag_number w.
Proof.
  revert tag_number w. induction tags as [|tag rest IH]; intros tag_number w.
  - reflexivity.
  - cbn [filter]. destruct (contains "=" tag) eqn:Hc.
    + cbn [for_tags]. rewrite split_single, Hc. cbn [negb].
      destruct (index (split "=" tag) 0) as [number|e]; [|reflexivity].
      destruct (render quirk args fields row_separator number (split "=" tag) w)
        as [[[]|e] w1]; [apply IH | reflexivity].
    + rewrite for_tags_skip by exact Hc. apply IH.
Qed.

(** a pass reads its pair only at index 1 *)
Lemma render_pair (quirk : path_quirk) (args : Args) (fields : option Element)
      (row_separator : string) (tag_number : string) (pair pair' : list string) (w : world) :
  index pair 1 = index pair' 1 ->
  render quirk args fields row_separator tag_number pair w
  = render quirk args fields row_separator tag_number pair' w.
Proof. intros H. unfold render. now rewrite H. Qed.

(** ** The tokenizer *)

(** C8 does not hold as stated: a line that contains U+0001 is split in
    two. *)
Lemma split_is_not_a_no_op :
  ~ (forall line : string, split delimiter line = [line]).
Proof.
  intros H. specialize (H ("8=FIX" ++ String delimiter "35=D")).
  vm_compute in H. discriminate H.
Qed.

(** ** Field lines *)

(** a pass whose tag resolves and whose annotation is a string writes the
    field line, then the rule *)
Lemma render_resolved (quirk : path_quirk) (args : Args) (fields : option Element)
      (row_separator : string) (tag_number : string) (pair : list string) (w w1 : world)
      (field : Element) (tag_name tag_value enums : string) :
  find_attr quirk fields "field" "number" tag_number = Ret (Some field) ->
  get field "name" = Some tag_name ->
  index pair 1 = Ret tag_value ->
  (if negb (hide_enums args) then get_enum_str quirk fields tag_number tag_value w
   else (Some "", w)) = (Some enums, w1) ->
  render quirk args fields row_separator tag_number pair w
  = (Ret tt,
     let w2 := write (field_line tag_number tag_name tag_value enums) w1 in
     if row_lines args then write row_separator w2 else w2).
Proof.
  intros Hf Hn Hv He. unfold render. rewrite Hf. cbn [obind get_of].
  rewrite Hn, Hv. cbn [obind len_of]. rewrite He. reflexivity.
Qed.

Lemma field_line_ljust (tag_number tag_name tag_value enums : string) :
  field_line tag_number tag_name tag_value enums
  = ljust 5 tag_number ++ " | " ++ ljust 23 tag_name ++ " | "
                       ++ tag_value ++ enums ++ nl.
Proof.
  pose proof (guarded_padding tag_column_length tag_number) as H1.
  pose proof (guarded_padding field_name_column_length tag_name) as H2.
  change (Z.to_nat tag_column_length) with 5 in H1.
  change (Z.to_nat field_name_column_length) with 23 in H2.
  rewrite <- H1, <- H2. unfold field_line.
  now rewrite !append_assoc.
Qed.

Lemma length_ljust (width : nat) (s : string) :
  String.length (ljust width s) = Nat.max width (String.length s).
Proof. unfold ljust. rewrite length_append, length_spaces. lia. Qed.

(** C3. A pair that resolves to a name and an annotation adds exactly one
    line to the file (followed by the rule when [row_lines] is set): the tag
    number, spaces up to 5 characters, [" | "], the name, spaces up to 23
    characters, [" | "], the value, the annotation and a newline.  The
    padding is only ever appended, so a longer tag number or name is written
    whole. *)
Theorem field_line_format (quirk : path_quirk)
        (args : Args) (fields : option Element) (row_separator : string)
        (tag_number : string) (pair : list string) (w w1 : world)
        (field : Element) (tag_name tag_value enums : string) :
  find_attr quirk fields "field" "number" tag_number = Ret (Some field) ->
  get field "name" = Some tag_name ->
  index pair 1 = Ret tag_value ->
  (if negb (hide_enums args) then get_enum_str quirk fields tag_number tag_value w
   else (Some "", w)) = (Some enums, w1) ->
  let line := field_line tag_number tag_name tag_value enums in
  fst (render quirk args fields row_separator tag_number pair w) = Ret tt
  /\ output_file (snd (render quirk args fields row_separator tag_number pair w))
     = (output_file w ++ line :: rule args row_separator)%list
  /\ line = (tag_number ++ spaces (5 - String.length tag_number)) ++ " | "
            ++ (tag_name ++ spaces (23 - String.length tag_name)) ++ " | "
            ++ tag_value ++ enums ++ nl
  /\ String.length (tag_number ++ spaces (5 - String.length tag_number))
     = Nat.max 5 (String.length tag_number)
  /\ String.length (tag_name ++ spaces (23 - String.length tag_name))
     = Nat.max 23 (String.length tag_name)
  /\ (5 <= String.length tag_number ->
      tag_number ++ spaces (5 - String.length tag_number) = tag_number)
  /\ (23 <= String.length tag_name ->
      tag_name ++ spaces (23 - String.length tag_name) = tag_name).
Proof.
  intros Hf Hn Hv He line.
  rewrite (render_resolved quirk _ _ row_separator _ _ _ _ _ _ _ _ Hf Hn Hv He).
  assert (Hw : output_file w1 = output_file w).
  { destruct (negb (hide_enums args)).
    - pose proof (get_enum_str_output quirk fields tag_number tag_value w) as Ho.
      rewrite He in Ho. exact Ho.
    - now inversion He. }
  split; [reflexivity|]. split.
  { unfold rule. destruct (row_lines args); simpl; rewrite Hw;
      [now rewrite <- app_assoc | reflexivity]. }
  split; [apply field_line_ljust|].
  split; [apply (length_ljust 5)|].
  split; [apply (length_ljust 23)|].
  split; [apply (ljust_long 5) | apply (ljust_long 23)].
Qed.

Lemma field_line_format_witness :
  find_attr sample_quirk (Some sample_fields) "field" "number" "8"
  = Ret (Some sample_begin)
  /\ get sample_begin "name" = Some "BeginString"
  /\ index ["8"; "FIX"] 1 = Ret "FIX"
  /\ output_file (snd (render sample_quirk (mkArgs true false) (Some sample_fields)
                              "" "8" ["8"; "FIX"] start))
     = ["8     | BeginString             | FIX" ++ nl].
Proof.
  split; [reflexivity|]. split; [reflexivity|]. split; [reflexivity|].
  exact (proj1 (proj2 (field_line_format sample_quirk (mkArgs true false)
                         (Some sample_fields) "" "8" ["8"; "FIX"] start start
                         sample_begin "BeginString" "FIX" ""
                         eq_refl eq_refl eq_refl eq_refl))).
Defined.

(** ** Enum annotations *)

Lemma list_enums_declared (children : list Element) (entries : list (string * string))
      (enums : string) :
  Forall2 declares children entries ->
  list_enums children enums = Ret (enums ++ enum_listing entries).
Proof.
  intros H. revert enums. induction H as [|c [code description] cs es Hc _ IH];
    intros enums; cbn [list_enums enum_listing].
  - now rewrite append_nil_r.
  - destruct Hc as (_ & Hcode & Hdesc). cbn [fst snd] in Hcode, Hdesc.
    rewrite Hcode, Hdesc. cbn [as_str obind]. rewrite IH. f_equal.
    now rewrite !append_assoc.
Qed.

(** looking a value up among the [value] children is looking it up in the
    enum set *)
Lemma find_declared (children : list Element) (entries : list (string * string))
      (tag_value : string) :
  Forall2 declares children entries ->
  match List.find (fun c => String.eqb (tag c) "value" && has_attr "enum" tag_value c)
                  children with
  | Some meaning => exists description,
      get meaning "description" = Some description
      /\ lookup tag_value entries = Some description
  | None => lookup tag_value entries = None
  end.
Proof.
  induction 1 as [|c [code description] cs es Hc _ IH]; simpl; [reflexivity|].
  destruct Hc as (Ht & Hcode & Hdesc). simpl in Hcode, Hdesc.
  unfold has_attr. rewrite Ht, Hcode. simpl.
  destruct (String.eqb code tag_value); [now exists description | exact IH].
Qed.

(** X15. The annotation of an enumerated field, for a value without an
    apostrophe.  For a field of the dictionary whose children are the [value]
    elements of a non-empty enum set, and with [hide_enums] off, the
    annotation of a pair is [" (" + description + ")"] when the value is one
    of the codes and the no-matching-enum marker otherwise, then spaces up to
    65 characters (none when it is already longer), then [code : description, ]
    for every entry in the order of the dictionary, whether or not the value
    matched.  Nothing is printed. *)
Theorem enum_annotation (quirk : path_quirk)
        (args : Args) (fields : option Element) (tag_number tag_value : string)
        (w : world) (field : Element) (entries : list (string * string)) :
  hide_enums args = false ->
  find_attr quirk fields "field" "number" tag_number = Ret (Some field) ->
  Forall2 declares (children field) entries ->
  entries <> [] ->
  contains "'" tag_value = false ->
  let marker := match lookup tag_value entries with
                | Some description => " (" ++ description ++ ")"
                | None => " (ERROR: NO MATCHING ENUM. CHECK DICTIONARY)"
                end in
  (if negb (hide_enums args) then get_enum_str quirk fields tag_number tag_value w
   else (Some "", w))
  = (Some ((marker ++ spaces (65 - String.length marker)) ++ enum_listing entries), w).
Proof.
  intros Hh Hf Hd Hne Hq marker. rewrite Hh. cbn [negb].
  unfold get_enum_str, get_enum_str_try. rewrite Hf. cbn [obind find_tag].
  destruct field as [t a cs]. cbn [children] in *.
  destruct Hd as [|c entry cs es Hc Hcs]; [congruence|].
  assert (Hall : Forall2 declares (c :: cs) (entry :: es)) by now constructor.
  cbn [List.find]. destruct Hc as (Ht & Hcode & Hdesc).
  rewrite Ht, String.eqb_refl. cbn [obind].
  unfold find_attr at 1. rewrite Hq. cbn [children].
  pose proof (find_declared (c :: cs) (entry :: es) tag_value Hall) as Hfind.
  assert (Hm : (meaning <- Ret (List.find
                   (fun c0 => String.eqb (tag c0) "value" && has_attr "enum" tag_value c0)
                   (c :: cs)) ;;
                match meaning with
                | Some m => description <- as_str (get m "description") ;;
                            Ret ("" ++ " (" ++ description ++ ")")
                | None => Ret ("" ++ no_matching_enum)
                end) = Ret marker).
  { cbn [obind]. unfold marker.
    destruct (List.find _ (c :: cs)) as [m|].
    - destruct Hfind as (d & Hg & Hl). rewrite Hg, Hl. reflexivity.
    - rewrite Hfind. reflexivity. }
  rewrite Hm. cbn [obind truth iter children List.length Nat.eqb negb].
  rewrite (for_range_add_spaces trailing_column_length marker).
  rewrite (list_enums_declared (c :: cs) (entry :: es) _ Hall).
  reflexivity.
Qed.

Lemma enum_annotation_witness :
  find_attr sample_quirk (Some sample_fields) "field" "number" "54"
  = Ret (Some sample_side)
  /\ Forall2 declares (children sample_side) [("1", "Buy"); ("2", "Sell")]
  /\ get_enum_str sample_quirk (Some sample_fields) "54" "1" start
     = (Some (" (Buy)" ++ spaces 59 ++ "1 : Buy, 2 : Sell, "), start)
  /\ get_enum_str sample_quirk (Some sample_fields) "54" "9" start
     = (Some (" (ERROR: NO MATCHING ENUM. CHECK DICTIONARY)" ++ spaces 21
              ++ "1 : Buy, 2 : Sell, "), start).
Proof.
  assert (Hd : Forall2 declares (children sample_side) [("1", "Buy"); ("2", "Sell")]).
  { repeat constructor. }
  assert (Hn : [("1", "Buy"); ("2", "Sell")] <> []) by discriminate.
  split; [reflexivity|]. split; [exact Hd|]. split.
  - exact (enum_annotation sample_quirk (mkArgs false false) (Some sample_fields)
             "54" "1" start sample_side _ eq_refl eq_refl Hd Hn eq_refl).
  - exact (enum_annotation sample_quirk (mkArgs false false) (Some sample_fields)
             "54" "9" start sample_side _ eq_refl eq_refl Hd Hn eq_refl).
Defined.

(** C2 fails on the code for a value that contains an apostrophe.  For the
    field 54 of the sample dictionary (codes 1 and 2) the value [a'b] matches
    no code, yet no annotation is produced: the lookup of the value raises,
    [get_enum_str] prints and returns [None], and [make_readable] then fails
    on [str + None], so the pair gets no field line and the pair after it is
    not rendered. *)
Theorem apostrophe_value_has_no_annotation (quirk : path_quirk) :
  get_enum_str quirk (Some sample_fields) "54" "a'b" start
  = (None, print "get_enum_str Exception :- " SyntaxError start)
  /\ make_readable quirk sample_args (Some sample_fields) build_row_separator
                   ["54=a'b"; "8=FIX"] start
     = (Ret tt,
        mkWorld [] [("get_enum_str Exception :- ", SyntaxError);
                    ("tag number 54 readable Exception :- ", TypeError)]).
Proof. split; reflexivity. Qed.

(** ** Separators *)

Lemma field_line_bar (s : string) : is_field_line s -> contains "|" s = true.
Proof.
  intros (tag_number & tag_name & tag_value & enums & ->).
  unfold field_line. rewrite !contains_append.
  replace (contains "|" " | ") with true by reflexivity.
  now rewrite !orb_true_r.
Qed.

Lemma row_separator_dashes :
  build_row_separator
  = copies 5 "-" ++ "-+-" ++ copies 23 "-" ++ "-+-" ++ copies 65 "-" ++ nl.
Proof. reflexivity. Qed.

Lemma msg_separator_periods : build_msg_separator = copies 100 "." ++ nl.
Proof. reflexivity. Qed.

Lemma separators_are_not_field_lines :
  ~ is_field_line build_row_separator /\ ~ is_field_line build_msg_separator.
Proof.
  split; intros H; apply field_line_bar in H; vm_compute in H; discriminate H.
Qed.

Lemma ruled_with_rows (args : Args) (row_separator : string) (lines : list string) :
  row_lines args = true ->
  ruled args row_separator lines = flat_map (fun line => [line; row_separator]) lines.
Proof. intros H. unfold ruled, rule. now rewrite H. Qed.

(** C6. With [row_lines] set, the block of a line is the row separator
    followed by the field lines, each one followed by the row separator: a
    row separator stands immediately before every field line and one follows
    the last.  The row separator is 5 dashes, [-+-], 23 dashes, [-+-], 65
    dashes and a newline, and no field line is equal to it. *)
Theorem row_separator_around_field_lines (quirk : path_quirk)
        (args : Args) (fields : option Element) (tags : list string) (w : world) :
  row_lines args = true ->
  exists lines w',
    make_readable quirk args fields build_row_separator tags w = (Ret tt, w')
    /\ Forall is_field_line lines
    /\ output_file w'
       = (output_file w
          ++ build_row_separator
          :: flat_map (fun line => [line; build_row_separator]) lines)%list
    /\ build_row_separator
       = copies 5 "-" ++ "-+-" ++ copies 23 "-" ++ "-+-" ++ copies 65 "-" ++ nl
    /\ ~ is_field_line build_row_separator.
Proof.
  intros Hr.
  destruct (make_readable_returns quirk args fields build_row_separator tags w)
    as (lines & w' & Hm & Hf & Ho).
  exists lines, w'. split; [exact Hm|]. split; [exact Hf|].
  split; [|split; [exact row_separator_dashes | apply separators_are_not_field_lines]].
  rewrite Ho, (ruled_with_rows _ _ _ Hr). unfold rule. rewrite Hr. reflexivity.
Qed.

Lemma row_separator_around_field_lines_witness :
  row_lines (mkArgs true true) = true
  /\ exists lines w',
      make_readable sample_quirk (mkArgs true true) (Some sample_fields)
                    build_row_separator ["8=FIX"; "54=1"] start = (Ret tt, w')
      /\ Forall is_field_line lines
      /\ output_file w'
         = (output_file start
            ++ build_row_separator
            :: flat_map (fun line => [line; build_row_separator]) lines)%list
      /\ build_row_separator
         = copies 5 "-" ++ "-+-" ++ copies 23 "-" ++ "-+-" ++ copies 65 "-" ++ nl
      /\ ~ is_field_line build_row_separator.
Proof.
  split; [reflexivity|].
  exact (row_separator_around_field_lines sample_quirk (mkArgs true true)
           (Some sample_fields) ["8=FIX"; "54=1"] start eq_refl).
Defined.

(** ** The line loop *)

Lemma for_tags_all_skipped (quirk : path_quirk) (args : Args) (fields : option Element)
      (row_separator : string) (tags : list string) (tag_number : option string)
      (w : world) :
  Forall (fun token => contains "=" token = false) tags ->
  for_tags quirk args fields row_separator tags tag_number w = (Ret tt, tag_number, w).
Proof.
  induction 1 as [|tag rest Ht _ IH]; [reflexivity|].
  now rewrite (for_tags_skip quirk _ _ _ _ _ _ _ Ht).
Qed.

Lemma not_in_ruled (args : Args) (row_separator s : string) (lines : list string) :
  Forall is_field_line lines ->
  ~ is_field_line s ->
  s <> row_separator ->
  ~ In s (rule args row_separator ++ ruled args row_separator lines)%list.
Proof.
  intros Hf Hs Hr Hin. apply in_app_or in Hin as [Hin|Hin].
  - unfold rule in Hin. destruct (row_lines args); simpl in Hin; intuition congruence.
  - unfold ruled in Hin. apply in_flat_map in Hin as (line & Hl & [<-|Hin]).
    + apply Hs. rewrite Forall_forall in Hf. now apply Hf.
    + unfold rule in Hin. destruct (row_lines args); simpl in Hin; intuition congruence.
Qed.

(** one turn of the loop on a line that is neither blank nor a comment *)
Lemma while_line_step (quirk : path_quirk) (args : Args) (fields : option Element)
      (row_separator msg_separator : string)
      (line : string) (rest : list string) (w : world) :
  line <> "" ->
  strip line <> "" ->
  starts_with "#" (strip line) = false ->
  exists lines w',
    make_readable quirk args fields row_separator (split delimiter (strip line)) w
    = (Ret tt, w')
    /\ Forall is_field_line lines
    /\ output_file w'
       = (output_file w ++ rule args row_separator ++ ruled args row_separator lines)%list
    /\ while_line quirk args fields row_separator msg_separator (line :: rest) w
       = while_line quirk args fields row_separator msg_separator rest (write msg_separator w').
Proof.
  intros Hl Hs Hc.
  destruct (make_readable_returns quirk args fields row_separator
              (split delimiter (strip line)) w) as (lines & w' & Hm & Hf & Ho).
  exists lines, w'. repeat split; try assumption.
  cbn [while_line].
  apply String.eqb_neq in Hl. apply String.eqb_neq in Hs.
  rewrite Hl, Hs, Hc. cbn [orb]. now rewrite Hm.
Qed.

(** the loop over the lines always returns and only ever appends *)
Lemma while_line_returns (quirk : path_quirk) (args : Args) (fields : option Element)
      (row_separator msg_separator : string) (input_file : list string) (w : world) :
  exists more w',
    while_line quirk args fields row_separator msg_separator input_file w = (Ret tt, w')
    /\ output_file w' = (output_file w ++ more)%list.
Proof.
  revert w. induction input_file as [|line rest IH]; intros w.
  - exists [], w. split; [reflexivity | now rewrite app_nil_r].
  - cbn [while_line].
    destruct (String.eqb line "") eqn:Hl.
    { exists [], w. split; [reflexivity | now rewrite app_nil_r]. }
    destruct (String.eqb (strip line) "" || starts_with "#" (strip line)) eqn:Hc.
    { apply IH. }
    destruct (make_readable_returns quirk args fields row_separator
                (split delimiter (strip line)) w) as (lines & w1 & -> & _ & Ho).
    destruct (IH (write msg_separator w1)) as (more & w' & Hw & Hm).
    exists ((rule args row_separator ++ ruled args row_separator lines)
              ++ msg_separator :: more)%list, w'.
    split; [exact Hw|]. rewrite Hm. cbn [write output_file]. rewrite Ho.
    rewrite <- !app_assoc. reflexivity.
Qed.

(** ** Failures *)

(** a pass that raises ends the block: the handler prints, and the tokens
    that follow are not looked at *)
Lemma make_readable_failure (quirk : path_quirk) (args : Args) (fields : option Element)
      (row_separator : string) (pre post : list string) (bad number : string)
      (bound : option string) (w w1 w2 : world) (e : exn) :
  for_tags quirk args fields row_separator pre None
           (if row_lines args then write row_separator w else w) = (Ret tt, bound, w1) ->
  contains "=" bad = true ->
  index (split "=" bad) 0 = Ret number ->
  render quirk args fields row_separator number (split "=" bad) w1 = (Raise e, w2) ->
  make_readable quirk args fields row_separator (pre ++ bad :: post) w
  = (Ret tt, print ("tag number " ++ number ++ " readable Exception :- ") e w2).
Proof.
  intros Hpre Hc Hi Hr. unfold make_readable.
  rewrite for_tags_app, Hpre. cbn [for_tags].
  rewrite split_single, Hc, Hi, Hr. reflexivity.
Qed.

(** a tag number without a field in the dictionary: [find] gives [None],
    and [None.get] raises before anything is written *)
Lemma render_unknown (quirk : path_quirk) (args : Args) (fields : option Element)
      (row_separator : string) (tag_number : string) (pair : list string) (w : world) :
  find_attr quirk fields "field" "number" tag_number = Ret None ->
  render quirk args fields row_separator tag_number pair w
  = (Raise (AttributeError "get"), w).
Proof. intros H. unfold render. now rewrite H. Qed.

Lemma render_raise_output (quirk : path_quirk) (args : Args) (fields : option Element)
      (row_separator : string) (tag_number : string) (pair : list string)
      (w w' : world) (e : exn) :
  render quirk args fields row_separator tag_number pair w = (Raise e, w') ->
  output_file w' = output_file w.
Proof.
  intros H.
  destruct (render_cases quirk args fields row_separator tag_number pair w)
    as [(e1 & w1 & H1 & Ho) | (line & w1 & H1 & _)]; rewrite H1 in H.
  - now inversion H; subst.
  - discriminate H.
Qed.

(** C10. When a pair of a line raises, the field lines of the earlier
    pairs are in the file and stay there: the failing pair writes nothing,
    the handler prints, the message separator is written next, and the loop
    goes on with the following line, returns, and only appends to what was
    written. *)
Theorem failure_keeps_what_was_written (quirk : path_quirk)
        (args : Args) (fields : option Element) (row_separator msg_separator : string)
        (line : string) (rest : list string) (w : world)
        (pre post : list string) (bad number : string) (bound : option string)
        (w1 w2 : world) (e : exn) :
  line <> "" ->
  strip line <> "" ->
  starts_with "#" (strip line) = false ->
  split delimiter (strip line) = (pre ++ bad :: post)%list ->
  for_tags quirk args fields row_separator pre None
           (if row_lines args then write row_separator w else w) = (Ret tt, bound, w1) ->
  contains "=" bad = true ->
  index (split "=" bad) 0 = Ret number ->
  render quirk args fields row_separator number (split "=" bad) w1 = (Raise e, w2) ->
  let w3 := write msg_separator
                  (print ("tag number " ++ number ++ " readable Exception :- ") e w2) in
  (exists lines,
      Forall is_field_line lines
      /\ output_file w1
         = (output_file w ++ rule args row_separator
                        ++ ruled args row_separator lines)%list)
  /\ output_file w3 = (output_file w1 ++ [msg_separator])%list
  /\ while_line quirk args fields row_separator msg_separator (line :: rest) w
     = while_line quirk args fields row_separator msg_separator rest w3
  /\ exists more w',
      while_line quirk args fields row_separator msg_separator rest w3 = (Ret tt, w')
      /\ output_file w' = (output_file w3 ++ more)%list.
Proof.
  intros Hl Hs Hc Hsplit Hpre Hbad Hi Hr w3.
  split.
  { destruct (for_tags_output quirk args fields row_separator pre None
                (if row_lines args then write row_separator w else w))
      as (lines & Hf & Ho).
    rewrite Hpre in Ho. cbn [snd] in Ho. exists lines. split; [exact Hf|].
    rewrite Ho. unfold rule. destruct (row_lines args); cbn [write output_file].
    - now rewrite <- app_assoc.
    - reflexivity. }
  split.
  { unfold w3. cbn [write print output_file].
    now rewrite (render_raise_output quirk _ _ _ _ _ _ _ _ Hr). }
  split.
  { cbn [while_line].
    apply String.eqb_neq in Hl. apply String.eqb_neq in Hs.
    rewrite Hl, Hs, Hc. cbn [orb]. rewrite Hsplit.
    now rewrite (make_readable_failure quirk _ _ _ _ _ _ _ _ _ _ _ _ Hpre Hbad Hi Hr). }
  apply while_line_returns.
Qed.

Lemma failure_keeps_what_was_written_witness :
  split delimiter (strip (wire ["8=FIX"; "999=x"; "54=1"]))
  = (["8=FIX"] ++ "999=x" :: ["54=1"])%list
  /\ for_tags sample_quirk sample_args (Some sample_fields) build_row_separator
              ["8=FIX"] None start
     = (Ret tt, Some "8", sample_written)
  /\ render sample_quirk sample_args (Some sample_fields) build_row_separator "999"
            (split "=" "999=x") sample_written
     = (Raise (AttributeError "get"), sample_written)
  /\ output_file
       (write build_msg_separator
              (print "tag number 999 readable Exception :- " (AttributeError "get")
                     sample_written))
     = [field_line "8" "BeginString" "FIX" ""; build_msg_separator]
  /\ while_line sample_quirk sample_args (Some sample_fields) build_row_separator
                build_msg_separator
                [wire ["8=FIX"; "999=x"; "54=1"]; wire ["54=2"]] start
     = while_line sample_quirk sample_args (Some sample_fields) build_row_separator
                  build_msg_separator [wire ["54=2"]]
                  (write build_msg_separator
                         (print "tag number 999 readable Exception :- "
                                (AttributeError "get") sample_written)).
Proof.
  assert (Hl : wire ["8=FIX"; "999=x"; "54=1"] <> ""%string)
    by (intros H; vm_compute in H; discriminate H).
  assert (Hs : strip (wire ["8=FIX"; "999=x"; "54=1"]) <> ""%string)
    by (intros H; vm_compute in H; discriminate H).
  assert (Hsplit : split delimiter (strip (wire ["8=FIX"; "999=x"; "54=1"]))
                   = (["8=FIX"] ++ "999=x" :: ["54=1"])%list) by reflexivity.
  assert (Hpre : for_tags sample_quirk sample_args (Some sample_fields)
                          build_row_separator ["8=FIX"] None
                          (if row_lines sample_args
                           then write build_row_separator start else start)
                 = (Ret tt, Some "8", sample_written)) by reflexivity.
  assert (Hr : render sample_quirk sample_args (Some sample_fields)
                      build_row_separator "999" (split "=" "999=x") sample_written
               = (Raise (AttributeError "get"), sample_written)) by reflexivity.
  destruct (failure_keeps_what_was_written sample_quirk sample_args (Some sample_fields)
              build_row_separator build_msg_separator
              (wire ["8=FIX"; "999=x"; "54=1"]) [wire ["54=2"]] start
              ["8=FIX"] ["54=1"] "999=x" "999" (Some "8") sample_written sample_written
              (AttributeError "get") Hl Hs eq_refl Hsplit Hpre eq_refl eq_refl Hr)
    as (_ & Ho & Hw & _).
  split; [exact Hsplit|]. split; [exact Hpre|]. split; [exact Hr|].
  split; [exact Ho | exact Hw].
Defined.

(** C1 does not hold as stated: a pair that follows a pair with an unknown
    tag is not rendered. *)
Lemma unknown_tag_is_not_skipped_alone :
  ~ (forall (quirk : path_quirk) (args : Args) (fields : option Element)
            (row_separator : string) (pre post : list string) (bad number : string)
            (w : world),
        contains "=" bad = true ->
        index (split "=" bad) 0 = Ret number ->
        find_attr quirk fields "field" "number" number = Ret None ->
        output_file (snd (make_readable quirk args fields row_separator
                            (pre ++ bad :: post) w))
        = output_file (snd (make_readable quirk args fields row_separator
                              (pre ++ post) w))).
Proof.
  intros H.
  specialize (H sample_quirk (mkArgs false false) (Some sample_fields)
                build_row_separator [] ["8=FIX"] "999=x" "999" start
                eq_refl eq_refl eq_refl).
  vm_compute in H. discriminate H.
Qed.

(** ** A run without a dictionary *)

Lemma init_fields_unusable (document : outcome Element) (w : world) :
  unusable document ->
  fst (init_fields document w) = None
  /\ output_file (snd (init_fields document w)) = output_file w.
Proof.
  destruct document as [[t a cs]|e]; cbn [unusable init_fields children fst snd];
    [|now split].
  intros H. split; [|reflexivity].
  generalize (@None Element) as acc.
  induction H as [|c cs Hc _ IH]; intros acc; cbn [fold_left]; [reflexivity|].
  apply String.eqb_neq in Hc. rewrite Hc. apply IH.
Qed.

(** without a field table every pass raises at once *)
Lemma for_tags_no_fields (quirk : path_quirk) (args : Args) (row_separator : string)
      (tags : list string) (tag_number : option string) (w : world) :
  exists r bound,
    for_tags quirk args None row_separator tags tag_number w = (r, bound, w).
Proof.
  revert tag_number. induction tags as [|tag rest IH]; intros tag_number;
    cbn [for_tags]; [eauto|].
  destruct (List.length (split "=" tag) =? 1)%nat; [apply IH|].
  destruct (index (split "=" tag) 0) as [number|e]; [|eauto].
  unfold render. cbn [find_attr obind]. eauto.
Qed.

Lemma make_readable_no_fields (quirk : path_quirk) (args : Args)
      (row_separator : string) (tags : list string) (w : world) :
  exists w', make_readable quirk args None row_separator tags w = (Ret tt, w')
             /\ output_file w' = (output_file w ++ rule args row_separator)%list.
Proof.
  unfold make_readable.
  set (w0 := if row_lines args then write row_separator w else w).
  assert (H0 : output_file w0 = (output_file w ++ rule args row_separator)%list).
  { unfold w0, rule.
    destruct (row_lines args); simpl; [reflexivity | now rewrite app_nil_r]. }
  pose proof (for_tags_bound quirk args None row_separator tags None w0) as Hb.
  destruct (for_tags_no_fields quirk args row_separator tags None w0) as (r & bound & H).
  rewrite H in *. destruct r as [[]|e].
  - now exists w0.
  - destruct bound as [number|]; [|exfalso; eapply Hb; reflexivity].
    eexists. split; [reflexivity | exact H0].
Qed.

Lemma while_line_no_fields (quirk : path_quirk) (args : Args)
      (row_separator msg_separator : string) (input_file : list string) (w : world) :
  exists w',
    while_line quirk args None row_separator msg_separator input_file w = (Ret tt, w')
    /\ output_file w'
       = (output_file w
          ++ flat_map (fun _ => bare_block args row_separator msg_separator)
                      (rendered_lines input_file))%list.
Proof.
  revert w. induction input_file as [|line rest IH]; intros w;
    cbn [while_line rendered_lines].
  - exists w. split; [reflexivity | now rewrite app_nil_r].
  - destruct (String.eqb line "").
    { exists w. split; [reflexivity | now rewrite app_nil_r]. }
    destruct (String.eqb (strip line) "" || starts_with "#" (strip line)).
    { apply IH. }
    destruct (make_readable_no_fields quirk args row_separator
                (split delimiter (strip line)) w) as (w1 & -> & Ho).
    destruct (IH (write msg_separator w1)) as (w' & Hw & Hm).
    exists w'. split; [exact Hw|]. rewrite Hm. cbn [write output_file flat_map].
    rewrite Ho. unfold bare_block. now rewrite <- !app_assoc.
Qed.

(** C5 does not hold as stated: after a dictionary that cannot be parsed
    the input is still read and the output file is not empty. *)
Lemma run_goes_on_without_dictionary :
  ~ (forall (quirk : path_quirk) (args : Args) (document : outcome Element)
            (input_file : list string),
        unusable document ->
        output_file (snd (main quirk args document input_file)) = []).
Proof.
  intros H.
  specialize (H sample_quirk sample_args (Raise ParseError) [wire ["8=FIX"]] I).
  vm_compute in H. discriminate H.
Qed.

(** ** A whole run *)

(** the scenario of the specification: one line [54=1], then a comment, a
    blank line and a line with an unknown tag in the middle *)
Example main_sample :
  main sample_quirk sample_args (Ret sample_document)
       [wire ["54=1"]; "# comment" ++ nl; nl; wire ["8=FIX"; "999=x"; "54=2"]]
  = (Ret tt,
     mkWorld
       ["54    | Side                    | 1 (Buy)" ++ spaces 59
          ++ "1 : Buy, 2 : Sell, " ++ nl;
        copies 100 "." ++ nl;
        "8     | BeginString             | FIX" ++ nl;
        copies 100 "." ++ nl]
       [("tag number 999 readable Exception :- ", AttributeError "get")]).
Proof. reflexivity. Qed.

(** ** What a call adds does not depend on what is there *)

Lemma extend_start_r (w : world) : extend w start = w.
Proof. destruct w as [o c]. unfold extend; simpl. now rewrite !app_nil_r. Qed.

Lemma extend_start_l (d : world) : extend start d = d.
Proof. now destruct d. Qed.

Lemma extend_assoc (w d d' : world) : extend (extend w d) d' = extend w (extend d d').
Proof. unfold extend; simpl. now rewrite !app_assoc. Qed.

Lemma write_extend (s : string) (w d : world) :
  write s (extend w d) = extend w (write s d).
Proof. unfold write, extend; simpl. now rewrite app_assoc. Qed.

Lemma print_extend (prefix : string) (e : exn) (w d : world) :
  print prefix e (extend w d) = extend w (print prefix e d).
Proof. unfold print, extend; simpl. now rewrite app_assoc. Qed.

Section Frame.

Variable quirk : path_quirk.
Variable args : Args.
Variable fields : option Element.
Variable row_separator msg_separator : string.

Lemma get_enum_str_frame (tag_number tag_value : string) (w : world) :
  get_enum_str quirk fields tag_number tag_value w
  = (fst (get_enum_str quirk fields tag_number tag_value start),
     extend w (snd (get_enum_str quirk fields tag_number tag_value start))).
Proof.
  unfold get_enum_str.
  destruct (get_enum_str_try quirk fields tag_number tag_value); cbn [fst snd].
  - now rewrite extend_start_r.
  - now rewrite <- print_extend, extend_start_r.
Qed.

Lemma render_frame (tag_number : string) (pair : list string) (w : world) :
  render quirk args fields row_separator tag_number pair w
  = (fst (render quirk args fields row_separator tag_number pair start),
     extend w (snd (render quirk args fields row_separator tag_number pair start))).
Proof.
  unfold render.
  destruct (found <- find_attr quirk fields "field" "number" tag_number ;;
            tag_name <- get_of found "name" ;;
            tag_value <- index pair 1 ;;
            _ <- len_of tag_name ;;
            Ret (tag_name, tag_value)) as [[tag_name tag_value]|e]; cbn [fst snd];
    [|now rewrite extend_start_r].
  destruct (hide_enums args); cbn [negb].
  - destruct (name <- as_str tag_name ;; enums <- as_str (Some "") ;;
              Ret (field_line tag_number name tag_value enums)) as [line|e];
      cbn [fst snd].
    + destruct (row_lines args);
        now rewrite <- ?write_extend, extend_start_r.
    + now rewrite extend_start_r.
  - rewrite (get_enum_str_frame tag_number tag_value w).
    destruct (get_enum_str quirk fields tag_number tag_value start) as [enums d];
      cbn [fst snd].
    destruct (name <- as_str tag_name ;; enums0 <- as_str enums ;;
              Ret (field_line tag_number name tag_value enums0)) as [line|e];
      cbn [fst snd]; [|reflexivity].
    destruct (row_lines args); now rewrite <- ?write_extend.
Qed.

Lemma for_tags_frame (tags : list string) (tag_number : option string) (w : world) :
  for_tags quirk args fields row_separator tags tag_number w
  = (fst (for_tags quirk args fields row_separator tags tag_number start),
     extend w (snd (for_tags quirk args fields row_separator tags tag_number start))).
Proof.
  revert tag_number w. induction tags as [|tag rest IH]; intros tag_number w;
    cbn [for_tags].
  - cbn [fst snd]. now rewrite extend_start_r.
  - destruct (List.length (split "=" tag) =? 1)%nat; [apply IH|].
    destruct (index (split "=" tag) 0) as [number|e];
      [|cbn [fst snd]; now rewrite extend_start_r].
    rewrite (render_frame number (split "=" tag) w).
    destruct (render quirk args fields row_separator number (split "=" tag) start)
      as [[[]|e] d]; cbn [fst snd]; [|reflexivity].
    rewrite (IH (Some number) (extend w d)), (IH (Some number) d).
    cbn [fst snd]. now rewrite extend_assoc.
Qed.

Lemma make_readable_frame (tags : list string) (w : world) :
  make_readable quirk args fields row_separator tags w
  = (fst (make_readable quirk args fields row_separator tags start),
     extend w (snd (make_readable quirk args fields row_separator tags start))).
Proof.
  unfold make_readable.
  set (w0 := if row_lines args then write row_separator w else w).
  set (d0 := if row_lines args then write row_separator start else start).
  assert (H0 : w0 = extend w d0).
  { unfold w0, d0. destruct (row_lines args);
      now rewrite <- ?write_extend, extend_start_r. }
  rewrite H0, (for_tags_frame tags None (extend w d0)), (for_tags_frame tags None d0).
  destruct (for_tags quirk args fields row_separator tags None start)
    as [[[[]|e] bound] d]; cbn [fst snd].
  - now rewrite extend_assoc.
  - destruct bound as [number|]; cbn [fst snd].
    + now rewrite <- print_extend, extend_assoc.
    + now rewrite extend_assoc.
Qed.

Lemma while_line_frame (input_file : list string) (w : world) :
  while_line quirk args fields row_separator msg_separator input_file w
  = (fst (while_line quirk args fields row_separator msg_separator input_file start),
     extend w (snd (while_line quirk args fields row_separator msg_separator
                               input_file start))).
Proof.
  revert w. induction input_file as [|line rest IH]; intros w; cbn [while_line].
  - cbn [fst snd]. now rewrite extend_start_r.
  - destruct (String.eqb line ""); [cbn [fst snd]; now rewrite extend_start_r|].
    destruct (String.eqb (strip line) "" || starts_with "#" (strip line));
      [apply IH|].
    rewrite (make_readable_frame (split delimiter (strip line)) w).
    destruct (make_readable quirk args fields row_separator
                (split delimiter (strip line)) start) as [[[]|e] d]; cbn [fst snd];
      [|reflexivity].
    rewrite (IH (write msg_separator (extend w d))), (IH (write msg_separator d)).
    cbn [fst snd]. now rewrite write_extend, extend_assoc.
Qed.

End Frame.

(** ** Properties of the whole run *)

Lemma while_line_app (quirk : path_quirk) (args : Args) (fields : option Element)
      (row_separator msg_separator : string) (before after : list string) (w : world) :
  Forall (fun line => line <> ""%string) before ->
  while_line quirk args fields row_separator msg_separator (before ++ after) w
  = while_line quirk args fields row_separator msg_separator after
      (snd (while_line quirk args fields row_separator msg_separator before w)).
Proof.
  intros H. revert w. induction H as [|line rest Hl _ IH]; intros w; [reflexivity|].
  cbn [app while_line]. apply String.eqb_neq in Hl. rewrite Hl.
  destruct (String.eqb (strip line) "" || starts_with "#" (strip line)); [apply IH|].
  destruct (make_readable_returns quirk args fields row_separator
              (split delimiter (strip line)) w) as (lines & w1 & -> & _).
  apply IH.
Qed.

(** X1. The lines are rendered one by one and nothing is carried from one line
    to the next: what a run writes and prints for a file is what it writes
    and prints for its first lines followed by what it writes and prints for
    the others, and neither depends on what was written before. *)
Theorem lines_are_rendered_one_by_one
        (quirk : path_quirk) (args : Args) (fields : option Element)
        (row_separator msg_separator : string) (before after : list string)
        (w : world) :
  Forall (fun line => line <> ""%string) before ->
  snd (while_line quirk args fields row_separator msg_separator (before ++ after) w)
  = extend (extend w (snd (while_line quirk args fields row_separator msg_separator
                                      before start)))
           (snd (while_line quirk args fields row_separator msg_separator
                            after start)).
Proof.
  intros H. rewrite (while_line_app _ _ _ _ _ _ _ _ H).
  rewrite (while_line_frame quirk args fields row_separator msg_separator after).
  rewrite (while_line_frame quirk args fields row_separator msg_separator before w).
  reflexivity.
Qed.

Lemma lines_are_rendered_one_by_one_witness :
  Forall (fun line => line <> ""%string) [wire ["8=FIX"; "999=x"]]
  /\ snd (while_line sample_quirk sample_args (Some sample_fields) build_row_separator
                     build_msg_separator
                     ([wire ["8=FIX"; "999=x"]] ++ [wire ["54=1"]]) start)
     = extend (extend start
                 (snd (while_line sample_quirk sample_args (Some sample_fields)
                                  build_row_separator build_msg_separator
                                  [wire ["8=FIX"; "999=x"]] start)))
              (snd (while_line sample_quirk sample_args (Some sample_fields)
                               build_row_separator build_msg_separator
                               [wire ["54=1"]] start)).
Proof.
  assert (H : Forall (fun line => line <> ""%string) [wire ["8=FIX"; "999=x"]]).
  { constructor; [|constructor]. intros E. vm_compute in E. discriminate E. }
  split; [exact H|].
  exact (lines_are_rendered_one_by_one sample_quirk sample_args (Some sample_fields)
           build_row_separator build_msg_separator _ [wire ["54=1"]] start H).
Defined.

(** comments and blank lines can be taken out of the input *)
Lemma while_line_messages (quirk : path_quirk) (args : Args) (fields : option Element)
      (row_separator msg_separator : string) (input_file : list string) (w : world) :
  Forall (fun line => line <> ""%string) input_file ->
  while_line quirk args fields row_separator msg_separator input_file w
  = while_line quirk args fields row_separator msg_separator
               (filter is_message input_file) w.
Proof.
  intros H. revert w. induction H as [|line rest Hl _ IH]; intros w; [reflexivity|].
  cbn [filter]. unfold is_message at 1.
  destruct (String.eqb (strip line) "" || starts_with "#" (strip line)) eqn:Hc;
    cbn [negb while_line]; apply String.eqb_neq in Hl; rewrite Hl, Hc.
  - apply IH.
  - destruct (make_readable quirk args fields row_separator
                (split delimiter (strip line)) w) as [[[]|e] w1];
      [apply IH | reflexivity].
Qed.

(** X3. Blank lines and comment lines leave no trace: a run on a file gives the
    same result, output and console as the run on the file without them. *)
Theorem comments_leave_no_trace
        (quirk : path_quirk) (args : Args) (document : outcome Element)
        (input_file : list string) :
  Forall (fun line => line <> ""%string) input_file ->
  main quirk args document input_file
  = main quirk args document (filter is_message input_file).
Proof.
  intros H. unfold main. destruct (init_fields document start) as [fields w].
  unfold parse_input_file. now rewrite (while_line_messages _ _ _ _ _ _ _ H).
Qed.

Lemma comments_leave_no_trace_witness :
  Forall (fun line => line <> ""%string)
         ["# header" ++ nl; nl; wire ["54=1"]; "   " ++ nl; "  # note" ++ nl]
  /\ main sample_quirk sample_args (Ret sample_document)
          ["# header" ++ nl; nl; wire ["54=1"]; "   " ++ nl; "  # note" ++ nl]
     = main sample_quirk sample_args (Ret sample_document) [wire ["54=1"]].
Proof.
  assert (H : Forall (fun line => line <> ""%string)
                ["# header" ++ nl; nl; wire ["54=1"]; "   " ++ nl; "  # note" ++ nl]).
  { repeat constructor; intros E; vm_compute in E; discriminate E. }
  split; [exact H|].
  exact (comments_leave_no_trace sample_quirk sample_args (Ret sample_document) _ H).
Defined.

(** the blocks of a run: one per rendered line, each the rule, the field
    lines with their rules, and the message separator *)
Lemma while_line_shape (quirk : path_quirk) (args : Args) (fields : option Element)
      (row_separator msg_separator : string) (input_file : list string) (w : world) :
  exists blocks : list (list string),
    List.length blocks = List.length (rendered_lines input_file)
    /\ Forall (Forall is_field_line) blocks
    /\ output_file (snd (while_line quirk args fields row_separator msg_separator
                                    input_file w))
       = (output_file w
          ++ flat_map (fun lines => rule args row_separator
                                      ++ ruled args row_separator lines
                                      ++ [msg_separator]) blocks)%list.
Proof.
  revert w. induction input_file as [|line rest IH]; intros w;
    cbn [while_line rendered_lines].
  - exists []. cbn. now rewrite app_nil_r.
  - destruct (String.eqb line "").
    { exists []. cbn. now rewrite app_nil_r. }
    destruct (String.eqb (strip line) "" || starts_with "#" (strip line)).
    { apply IH. }
    destruct (make_readable_returns quirk args fields row_separator
                (split delimiter (strip line)) w) as (lines & w1 & -> & Hf & Ho).
    destruct (IH (write msg_separator w1)) as (blocks & Hn & Hb & Hw).
    exists (lines :: blocks). split; [cbn; now rewrite Hn|].
    split; [now constructor|].
    rewrite Hw. cbn [write output_file flat_map]. rewrite Ho.
    now rewrite <- !app_assoc.
Qed.

Lemma init_fields_output (document : outcome Element) (w : world) :
  output_file (snd (init_fields document w)) = output_file w.
Proof. destruct document; reflexivity. Qed.

Lemma main_shape (quirk : path_quirk) (args : Args) (document : outcome Element)
      (input_file : list string) :
  exists blocks : list (list string),
    List.length blocks = List.length (rendered_lines input_file)
    /\ Forall (Forall is_field_line) blocks
    /\ output_file (snd (main quirk args document input_file))
       = flat_map (fun lines => rule args build_row_separator
                                  ++ ruled args build_row_separator lines
                                  ++ [build_msg_separator])%list blocks.
Proof.
  unfold main. pose proof (init_fields_output document start) as H0.
  destruct (init_fields document start) as [fields w]. cbn [snd] in H0.
  destruct (while_line_shape quirk args fields build_row_separator
              build_msg_separator input_file w) as (blocks & Hn & Hb & Hw).
  exists blocks. split; [exact Hn|]. split; [exact Hb|].
  unfold parse_input_file.
  destruct (while_line quirk args fields build_row_separator build_msg_separator
              input_file w) as [[[]|e] w']; cbn [snd] in *; now rewrite Hw, H0.
Qed.

Lemma times_written_block (args : Args) (lines : list string) :
  Forall is_field_line lines ->
  times_written build_msg_separator
    (rule args build_row_separator ++ ruled args build_row_separator lines
          ++ [build_msg_separator])%list = 1.
Proof.
  intros Hf. unfold times_written.
  rewrite app_assoc, count_occ_app.
  assert (Hn : ~ In build_msg_separator
                 (rule args build_row_separator
                    ++ ruled args build_row_separator lines)%list).
  { apply not_in_ruled; [exact Hf | apply separators_are_not_field_lines |].
    vm_compute. discriminate. }
  apply (count_occ_not_In string_dec) in Hn. rewrite Hn. cbn [count_occ].
  destruct (string_dec build_msg_separator build_msg_separator); [reflexivity|congruence].
Qed.


(** X5. Among the strings the run writes, those equal to the message
    separator are as many as the input lines that are neither blank nor a
    comment: [write] is called with the message separator once for each of
    these lines, and no field line or row separator that is written is equal
    to it.  (This counts the calls of [write], not the lines of the file: a
    field line holds a newline of its own when a name of the dictionary
    does.) *)
Theorem separators_count_the_messages
        (quirk : path_quirk) (args : Args) (document : outcome Element)
        (input_file : list string) :
  times_written build_msg_separator
                (output_file (snd (main quirk args document input_file)))
  = List.length (rendered_lines input_file).
Proof.
  destruct (main_shape quirk args document input_file) as (blocks & Hn & Hb & ->).
  rewrite <- Hn. clear Hn. induction Hb as [|lines blocks Hl _ IH]; [reflexivity|].
  cbn [flat_map List.length]. unfold times_written in *.
  rewrite count_occ_app, IH.
  pose proof (times_written_block args lines Hl) as H1. unfold times_written in H1.
  now rewrite H1.
Qed.

(** X6. Without [row_lines], [write] is never called with the row
    separator: no string the run writes is equal to it.  (This is about the
    calls of [write], as X5 is.) *)
Theorem no_row_separator_unless_asked
        (quirk : path_quirk) (args : Args) (document : outcome Element)
        (input_file : list string) :
  row_lines args = false ->
  ~ In build_row_separator (output_file (snd (main quirk args document input_file))).
Proof.
  intros Hr.
  destruct (main_shape quirk args document input_file) as (blocks & _ & Hb & ->).
  induction Hb as [|lines blocks Hl _ IH]; [intros []|].
  cbn [flat_map]. intros Hin.
  apply in_app_or in Hin as [Hin|Hin]; [|exact (IH Hin)].
  unfold ruled in Hin. unfold rule in Hin. rewrite Hr in Hin. cbn [app] in Hin.
  apply in_app_or in Hin as [Hin|[Hin|[]]].
  - apply in_flat_map in Hin as (line & Hline & Hin).
    cbv beta iota in Hin. destruct Hin as [E|[]].
    rewrite Forall_forall in Hl. specialize (Hl _ Hline). rewrite E in Hl.
    exact (proj1 separators_are_not_field_lines Hl).
  - vm_compute in Hin. discriminate Hin.
Qed.

Lemma no_row_separator_unless_asked_witness :
  row_lines sample_args = false
  /\ ~ In build_row_separator
          (output_file (snd (main sample_quirk sample_args (Ret sample_document)
                                  [wire ["8=FIX"; "54=1"]]))).
Proof.
  split; [reflexivity|].
  exact (no_row_separator_unless_asked sample_quirk sample_args (Ret sample_document)
           [wire ["8=FIX"; "54=1"]] eq_refl).
Defined.

(** ** The console and the file *)

Lemma app_longer {A : Type} (l more : list A) : (l ++ more)%list = l -> more = [].
Proof.
  intros H. rewrite <- (app_nil_r l) in H at 2. exact (app_inv_head _ _ _ H).
Qed.

Section Report.

Variable quirk : path_quirk.
Variable args : Args.
Variable fields : option Element.
Variable row_separator : string.

(** a pass that returns has printed nothing and written one field line; a
    pass that raises has written nothing and printed at most the message of
    [get_enum_str] *)
Lemma render_report (tag_number : string) (pair : list string) (w : world) :
  (exists line w',
      render quirk args fields row_separator tag_number pair w = (Ret tt, w')
      /\ is_field_line line
      /\ output_file w' = (output_file w ++ line :: rule args row_separator)%list
      /\ stdout w' = stdout w)
  \/ (exists e w' printed,
         render quirk args fields row_separator tag_number pair w = (Raise e, w')
         /\ output_file w' = output_file w
         /\ stdout w' = (stdout w ++ printed)%list).
Proof.
  unfold render.
  destruct (found <- find_attr quirk fields "field" "number" tag_number ;;
            tag_name <- get_of found "name" ;;
            tag_value <- index pair 1 ;;
            _ <- len_of tag_name ;;
            Ret (tag_name, tag_value)) as [[tag_name tag_value]|e].
  2: { right. exists e, w, []. now rewrite app_nil_r. }
  assert (He : exists enums w1 printed,
             (if negb (hide_enums args)
              then get_enum_str quirk fields tag_number tag_value w
              else (Some "", w)) = (enums, w1)
             /\ output_file w1 = output_file w
             /\ stdout w1 = (stdout w ++ printed)%list
             /\ (enums <> None -> w1 = w)).
  { destruct (negb (hide_enums args)).
    - unfold get_enum_str.
      destruct (get_enum_str_try quirk fields tag_number tag_value) as [enums|e].
      + exists (Some enums), w, []. now rewrite app_nil_r.
      + eexists None, _, [_]. repeat split. intros H. now elim H.
    - exists (Some ""), w, []. now rewrite app_nil_r. }
  destruct He as (enums & w1 & printed & -> & Ho & Hp & Hs).
  destruct tag_name as [name|]; cbn [as_str obind];
    [|right; exists TypeError, w1, printed; auto].
  destruct enums as [enums|]; cbn [as_str obind];
    [|right; exists TypeError, w1, printed; auto].
  rewrite (Hs ltac:(discriminate)).
  left. exists (field_line tag_number name tag_value enums). eexists.
  split; [reflexivity|]. split; [now exists tag_number, name, tag_value, enums|].
  unfold rule. destruct (row_lines args); cbn [write output_file stdout];
    split; try reflexivity. now rewrite <- app_assoc.
Qed.

(** the loop: the field lines written are as many as the tokens with [=]
    when it returns, and fewer when it raises; it prints only when it
    raises *)
Lemma for_tags_report (tags : list string) (tag_number : option string) (w : world) :
  exists lines r bound w' printed,
    for_tags quirk args fields row_separator tags tag_number w = (r, bound, w')
    /\ Forall is_field_line lines
    /\ output_file w' = (output_file w ++ ruled args row_separator lines)%list
    /\ stdout w' = (stdout w ++ printed)%list
    /\ match r with
       | Ret _ => List.length lines = List.length (filter (contains "=") tags)
                  /\ printed = []
       | Raise _ => List.length lines < List.length (filter (contains "=") tags)
       end.
Proof.
  revert tag_number w. induction tags as [|tag rest IH]; intros tag_number w.
  - exists [], (Ret tt), tag_number, w, []. cbn. now rewrite !app_nil_r.
  - cbn [for_tags filter]. rewrite split_single.
    destruct (contains "=" tag); cbn [negb]; [|apply IH].
    destruct (index_split_0 "=" tag) as [number ->].
    destruct (render_report number (split "=" tag) w)
      as [(line & w1 & -> & Hl & Ho & Hp) | (e & w1 & printed & -> & Ho & Hp)].
    + destruct (IH (Some number) w1)
        as (lines & r & bound & w' & printed & -> & Hf & Hw & Hs & Hr).
      exists (line :: lines), r, bound, w', printed. split; [reflexivity|].
      split; [now constructor|]. split.
      * rewrite Hw, Ho. unfold ruled; cbn [flat_map]. now rewrite <- app_assoc.
      * split; [congruence|]. destruct r; cbn [List.length]; [|lia].
        destruct Hr as [Hr1 Hr2]. split; [lia | assumption].
    + exists [], (Raise e), (Some number), w1, printed. split; [reflexivity|].
      split; [constructor|]. split; [cbn; now rewrite app_nil_r|].
      split; [exact Hp|]. cbn [List.length]. lia.
Qed.

End Report.

(** X7. A line never gets more field lines than it has tokens with [=], and it
    gets one for each of them exactly when nothing is printed while it is
    rendered: a silent console means that no pair was lost. *)
Theorem silent_means_complete
        (quirk : path_quirk) (args : Args) (fields : option Element)
        (row_separator : string) (tags : list string) (w : world) :
  exists lines w',
    make_readable quirk args fields row_separator tags w = (Ret tt, w')
    /\ Forall is_field_line lines
    /\ output_file w'
       = (output_file w ++ rule args row_separator
                       ++ ruled args row_separator lines)%list
    /\ List.length lines <= List.length (filter (contains "=") tags)
    /\ (List.length lines = List.length (filter (contains "=") tags)
        <-> stdout w' = stdout w).
Proof.
  unfold make_readable.
  set (w0 := if row_lines args then write row_separator w else w).
  assert (H0 : output_file w0 = (output_file w ++ rule args row_separator)%list
               /\ stdout w0 = stdout w).
  { unfold w0, rule.
    destruct (row_lines args); cbn; [auto | now rewrite app_nil_r]. }
  destruct H0 as [H0 H1].
  pose proof (for_tags_bound quirk args fields row_separator tags None w0) as Hb.
  destruct (for_tags_report quirk args fields row_separator tags None w0)
    as (lines & r & bound & w' & printed & Hrun & Hf & Ho & Hs & Hr).
  rewrite Hrun in *. destruct r as [[]|e].
  - destruct Hr as [Hn ->]. rewrite app_nil_r in Hs.
    exists lines, w'. split; [reflexivity|].
    split; [exact Hf|]. split; [now rewrite Ho, H0, <- app_assoc|].
    split; [lia|]. split; [intros _; congruence | intros _; exact Hn].
  - destruct bound as [number|]; [|exfalso; eapply Hb; reflexivity].
    eexists lines, _. split; [reflexivity|]. split; [exact Hf|].
    split; [cbn [print output_file]; now rewrite Ho, H0, <- app_assoc|].
    split; [lia|]. split; [lia|].
    cbn [print stdout]. intros E. exfalso.
    rewrite Hs, H1, <- app_assoc in E. apply app_longer in E.
    destruct printed; discriminate E.
Qed.

(** ** Edge cases of one line *)




(** X9. With [hide_enums] a pair whose tag has a named field is always
    rendered, with an empty annotation: the enum entries of the field and the
    value play no part, and nothing is printed. *)
Theorem hide_enums_renders_every_resolved_pair
        (quirk : path_quirk) (args : Args) (fields : option Element)
        (row_separator : string) (tag_number : string) (pair : list string)
        (w : world) (field : Element) (tag_name tag_value : string) :
  hide_enums args = true ->
  find_attr quirk fields "field" "number" tag_number = Ret (Some field) ->
  get field "name" = Some tag_name ->
  index pair 1 = Ret tag_value ->
  let w1 := write (field_line tag_number tag_name tag_value "") w in
  render quirk args fields row_separator tag_number pair w
  = (Ret tt, if row_lines args then write row_separator w1 else w1)
  /\ stdout w1 = stdout w.
Proof.
  intros Hh Hf Hn Hv w1. split; [|reflexivity].
  apply (render_resolved quirk args fields row_separator tag_number pair w w
           field tag_name tag_value "" Hf Hn Hv).
  now rewrite Hh.
Qed.

Lemma hide_enums_renders_every_resolved_pair_witness :
  hide_enums (mkArgs true false) = true
  /\ find_attr sample_quirk (Some sample_fields) "field" "number" "54"
     = Ret (Some sample_side)
  /\ get sample_side "name" = Some "Side"
  /\ index ["54"; "a'b"] 1 = Ret "a'b"
  /\ render sample_quirk (mkArgs true false) (Some sample_fields) build_row_separator
            "54" ["54"; "a'b"] start
     = (Ret tt, write (field_line "54" "Side" "a'b" "") start).
Proof.
  split; [reflexivity|]. split; [reflexivity|]. split; [reflexivity|].
  split; [reflexivity|].
  exact (proj1 (hide_enums_renders_every_resolved_pair sample_quirk
                  (mkArgs true false) (Some sample_fields) build_row_separator
                  "54" ["54"; "a'b"] start sample_side "Side" "a'b"
                  eq_refl eq_refl eq_refl eq_refl)).
Defined.

(** X10. A field without children is free-form: its annotation is empty for
    every value, apostrophes included, and nothing is printed, so its line is
    the same with and without [hide_enums]. *)
Theorem free_form_field_has_no_annotation
        (quirk : path_quirk) (args : Args) (fields : option Element)
        (row_separator : string) (tag_number : string) (pair : list string)
        (w : world) (field : Element) (tag_name tag_value : string) :
  find_attr quirk fields "field" "number" tag_number = Ret (Some field) ->
  children field = [] ->
  get field "name" = Some tag_name ->
  index pair 1 = Ret tag_value ->
  get_enum_str quirk fields tag_number tag_value w = (Some "", w)
  /\ render quirk args fields row_separator tag_number pair w
     = (Ret tt,
        let w1 := write (field_line tag_number tag_name tag_value "") w in
        if row_lines args then write row_separator w1 else w1).
Proof.
  intros Hf Hc Hn Hv.
  assert (He : get_enum_str quirk fields tag_number tag_value w = (Some "", w)).
  { unfold get_enum_str, get_enum_str_try. rewrite Hf.
    cbn [obind find_tag truth iter]. rewrite Hc. reflexivity. }
  split; [exact He|].
  apply (render_resolved quirk args fields row_separator tag_number pair w w
           field tag_name tag_value "" Hf Hn Hv).
  destruct (negb (hide_enums args)); [exact He | reflexivity].
Qed.

Lemma free_form_field_has_no_annotation_witness :
  find_attr sample_quirk (Some sample_fields) "field" "number" "8"
  = Ret (Some sample_begin)
  /\ children sample_begin = []
  /\ get sample_begin "name" = Some "BeginString"
  /\ index ["8"; "O'Neil"] 1 = Ret "O'Neil"
  /\ get_enum_str sample_quirk (Some sample_fields) "8" "O'Neil" start
     = (Some "", start)
  /\ render sample_quirk sample_args (Some sample_fields) build_row_separator
            "8" ["8"; "O'Neil"] start
     = (Ret tt, write (field_line "8" "BeginString" "O'Neil" "") start).
Proof.
  split; [reflexivity|]. split; [reflexivity|]. split; [reflexivity|].
  split; [reflexivity|].
  exact (free_form_field_has_no_annotation sample_quirk sample_args
           (Some sample_fields) build_row_separator "8" ["8"; "O'Neil"] start
           sample_begin "BeginString" "O'Neil" eq_refl eq_refl eq_refl eq_refl).
Defined.

Lemma list_enums_incomplete (entries : list Element) (c : Element) (enums : string) :
  In c entries ->
  get c "enum" = None \/ get c "description" = None ->
  list_enums entries enums = Raise TypeError.
Proof.
  revert enums. induction entries as [|d rest IH]; intros enums Hin Hc; [destruct Hin|].
  cbn [list_enums].
  destruct (get d "enum") as [code|] eqn:Hcode; cbn [as_str obind]; [|reflexivity].
  destruct (get d "description") as [description|] eqn:Hdesc; cbn [as_str obind];
    [|reflexivity].
  destruct Hin as [->|Hin]; [|now apply IH].
  destruct Hc as [Hc|Hc]; congruence.
Qed.

(** X11. One incomplete entry spoils the whole field: when a child of a field
    lacks the [enum] or the [description] attribute, [get_enum_str] returns
    [None] for every value, after printing one message, and writes
    nothing. *)
Theorem incomplete_entry_spoils_the_field
        (quirk : path_quirk) (fields : option Element) (tag_number tag_value : string)
        (w : world) (field c : Element) :
  find_attr quirk fields "field" "number" tag_number = Ret (Some field) ->
  In c (children field) ->
  get c "enum" = None \/ get c "description" = None ->
  exists e,
    get_enum_str quirk fields tag_number tag_value w
    = (None, print "get_enum_str Exception :- " e w).
Proof.
  intros Hf Hin Hc. unfold get_enum_str, get_enum_str_try. rewrite Hf.
  cbn [obind find_tag].
  destruct (match List.find (fun c0 => String.eqb (tag c0) "value") (children field) with
            | Some _ =>
                meaning <- find_attr quirk (Some field) "value" "enum" tag_value ;;
                match meaning with
                | Some m => description <- as_str (get m "description") ;;
                            Ret ("" ++ " (" ++ description ++ ")")
                | None => Ret ("" ++ no_matching_enum)
                end
            | None => Ret ""
            end) as [enums|e]; cbn [obind]; [|now exists e].
  assert (Ht : truth (Some field) = true).
  { cbn [truth]. destruct (children field); [destruct Hin | reflexivity]. }
  rewrite Ht. cbn [iter].
  rewrite (list_enums_incomplete _ c _ Hin Hc). now exists TypeError.
Qed.

Lemma incomplete_entry_spoils_the_field_witness :
  In (Elem "value" [("enum", "2")] []) (children sample_incomplete)
  /\ get (Elem "value" [("enum", "2")] []) "description" = None
  /\ exists e,
      get_enum_str sample_quirk (Some (Elem "fields" [] [sample_incomplete]))
                   "40" "1" start
      = (None, print "get_enum_str Exception :- " e start).
Proof.
  assert (Hin : In (Elem "value" [("enum", "2")] []) (children sample_incomplete))
    by (right; left; reflexivity).
  split; [exact Hin|]. split; [reflexivity|].
  exact (incomplete_entry_spoils_the_field sample_quirk
           (Some (Elem "fields" [] [sample_incomplete])) "40" "1" start
           sample_incomplete _ eq_refl Hin (or_intror eq_refl)).
Defined.

(** ** Loading the dictionary *)

Lemma find_snoc {A : Type} (p : A -> bool) (l : list A) (a : A) :
  List.find p (l ++ [a])
  = match List.find p l with
    | Some x => Some x
    | None => if p a then Some a else None
    end.
Proof.
  induction l as [|x l IH]; cbn [app List.find]; [reflexivity|].
  destruct (p x); [reflexivity | exact IH].
Qed.

Lemma keep_last (p : Element -> bool) (l : list Element) (acc : option Element) :
  fold_left (fun fields child => if p child then Some child else fields) l acc
  = match List.find p (rev l) with
    | Some child => Some child
    | None => acc
    end.
Proof.
  revert acc. induction l as [|a l IH]; intros acc; cbn [fold_left rev];
    [reflexivity|].
  rewrite IH, find_snoc. destruct (List.find p (rev l)); [reflexivity|].
  destruct (p a); reflexivity.
Qed.

(** X12. From a parsed document [init_fields] takes the last child of the root
    that is named [fields] (none when there is no such child), whatever else
    the root holds, and neither prints nor writes. *)
Theorem init_fields_takes_the_last_fields_child (root : Element) (w : world) :
  init_fields (Ret root) w
  = (List.find (fun child => String.eqb (tag child) "fields") (rev (children root)), w).
Proof.
  cbn [init_fields]. rewrite keep_last.
  now destruct (List.find _ (rev (children root))).
Qed.

(** ** Columns *)

Lemma substring_past (a b : string) (k n : nat) :
  String.length a = k -> substring k n (a ++ b) = substring 0 n b.
Proof. intros <-. induction a as [|x a IH]; [reflexivity | exact IH]. Qed.

Lemma substring_bar (rest : string) : substring 0 3 (" | " ++ rest) = " | ".
Proof. destruct rest; reflexivity. Qed.

(** X13. When the tag number has at most 5 characters and the name at most 23,
    the bars of the field line stand where the crosses of the row separator
    stand, at the characters 5 to 7 and 31 to 33, and the value starts at
    character 34. *)
Theorem columns_are_aligned (tag_number tag_name tag_value enums : string) :
  String.length tag_number <= 5 ->
  String.length tag_name <= 23 ->
  let line := field_line tag_number tag_name tag_value enums in
  substring 5 3 line = " | "
  /\ substring 31 3 line = " | "
  /\ substring 5 3 build_row_separator = "-+-"
  /\ substring 31 3 build_row_separator = "-+-"
  /\ exists columns,
      String.length columns = 34
      /\ line = columns ++ tag_value ++ enums ++ nl.
Proof.
  intros H1 H2 line. unfold line. rewrite field_line_ljust.
  pose proof (ljust_short 5 tag_number H1) as L1.
  pose proof (ljust_short 23 tag_name H2) as L2.
  set (rest := tag_value ++ enums ++ nl).
  assert (L3 : String.length (ljust 5 tag_number ++ " | " ++ ljust 23 tag_name) = 31).
  { rewrite !length_append, L1, L2. reflexivity. }
  assert (E : ljust 5 tag_number ++ " | " ++ ljust 23 tag_name ++ " | " ++ rest
              = (ljust 5 tag_number ++ " | " ++ ljust 23 tag_name) ++ " | " ++ rest).
  { now rewrite !append_assoc. }
  split.
  { now rewrite (substring_past _ _ 5 3 L1), substring_bar. }
  split.
  { now rewrite E, (substring_past _ _ 31 3 L3), substring_bar. }
  split; [reflexivity|]. split; [reflexivity|].
  exists (ljust 5 tag_number ++ " | " ++ ljust 23 tag_name ++ " | ").
  split.
  - rewrite !length_append, L1, L2. reflexivity.
  - now rewrite !append_assoc.
Qed.

Lemma columns_are_aligned_witness :
  String.length "54" <= 5
  /\ String.length "Side" <= 23
  /\ substring 5 3 (field_line "54" "Side" "1" "") = " | "
  /\ substring 31 3 (field_line "54" "Side" "1" "") = " | ".
Proof.
  assert (H1 : String.length "54" <= 5) by (cbn; lia).
  assert (H2 : String.length "Side" <= 23) by (cbn; lia).
  split; [exact H1|]. split; [exact H2|].
  destruct (columns_are_aligned "54" "Side" "1" "" H1 H2) as (A & B & _).
  split; [exact A | exact B].
Defined.

(** ** Starting up *)

(** the constructor returns exactly when the three paths are given and not
    empty; otherwise it exits with status 1 and the message of the first
    option that is missing *)
Lemma constructor_needs_the_three_paths (ns : Namespace) :
  (not_given (input ns) = false /\ not_given (output ns) = false
   /\ not_given (data_dictionary ns) = false
   /\ FIXParser_init ns = Constructed ns)
  \/ ((not_given (input ns) = true \/ not_given (output ns) = true
       \/ not_given (data_dictionary ns) = true)
      /\ FIXParser_init ns
         = SystemExit
             (if not_given (input ns)
              then "Error: specify input file path with --input"
              else if not_given (output ns)
                   then "Error: specify output file path with --output"
                   else "Error: specify data dictionary file path with --dd")
             1).
Proof.
  unfold FIXParser_init.
  destruct (not_given (input ns)), (not_given (output ns)),
    (not_given (data_dictionary ns)); auto 10.
Qed.

(** ** One line of the input *)

Lemma contains_lstrip (c : ascii) (s : string) :
  isspace c = false -> contains c (lstrip s) = contains c s.
Proof.
  intros Hc. induction s as [|a s IH]; [reflexivity|]. cbn [lstrip].
  destruct (isspace a) eqn:Ha; [|reflexivity].
  rewrite IH. cbn [contains]. destruct (Ascii.eqb_spec a c) as [->|_];
    [congruence | reflexivity].
Qed.

Lemma contains_rstrip (c : ascii) (s : string) :
  isspace c = false -> contains c (rstrip s) = contains c s.
Proof.
  intros Hc. induction s as [|a s IH]; [reflexivity|]. cbn [rstrip contains].
  rewrite <- IH. destruct (rstrip s) as [|b kept].
  - destruct (isspace a) eqn:Ha; cbn [contains].
    + destruct (Ascii.eqb_spec a c) as [->|_]; [congruence | reflexivity].
    + reflexivity.
  - reflexivity.
Qed.

Lemma contains_strip (c : ascii) (s : string) :
  isspace c = false -> contains c (strip s) = contains c s.
Proof.
  intros Hc. unfold strip. now rewrite contains_rstrip, contains_lstrip.
Qed.

Lemma occurrences_lstrip (c : ascii) (s : string) :
  isspace c = false -> occurrences c (lstrip s) = occurrences c s.
Proof.
  intros Hc. induction s as [|a s IH]; [reflexivity|]. cbn [lstrip].
  destruct (isspace a) eqn:Ha; [|reflexivity].
  rewrite IH. cbn [occurrences]. destruct (Ascii.eqb_spec a c) as [->|_];
    [congruence | reflexivity].
Qed.

Lemma occurrences_rstrip (c : ascii) (s : string) :
  isspace c = false -> occurrences c (rstrip s) = occurrences c s.
Proof.
  intros Hc. induction s as [|a s IH]; [reflexivity|]. cbn [rstrip occurrences].
  rewrite <- IH. destruct (rstrip s) as [|b kept].
  - destruct (isspace a) eqn:Ha; cbn [occurrences].
    + destruct (Ascii.eqb_spec a c) as [->|_]; [congruence | reflexivity].
    + reflexivity.
  - reflexivity.
Qed.

Lemma occurrences_strip (c : ascii) (s : string) :
  isspace c = false -> occurrences c (strip s) = occurrences c s.
Proof.
  intros Hc. unfold strip. now rewrite occurrences_rstrip, occurrences_lstrip.
Qed.

Lemma length_split (sep : ascii) (s : string) :
  List.length (split sep s) = S (occurrences sep s).
Proof.
  induction s as [|a s IH]; [reflexivity|]. cbn [split occurrences].
  destruct (Ascii.eqb a sep); cbn [List.length]; [now rewrite IH|].
  destruct (split sep s); cbn [List.length] in *; [discriminate IH | exact IH].
Qed.

Section OneLine.

Variable quirk : path_quirk.
Variable args : Args.
Variable fields : option Element.
Variable row_separator msg_separator : string.

(** the turn of the loop on a line that is neither blank nor a comment: its
    tokens are rendered, the message separator is written, and the loop goes
    on *)
Lemma while_line_turn (line : string) (rest : list string) (w : world) :
  line <> ""%string ->
  strip line <> ""%string ->
  starts_with "#" (strip line) = false ->
  while_line quirk args fields row_separator msg_separator (line :: rest) w
  = while_line quirk args fields row_separator msg_separator rest
      (write msg_separator
             (snd (make_readable quirk args fields row_separator
                                 (split delimiter (strip line)) w))).
Proof.
  intros Hl Hs Hc. cbn [while_line].
  apply String.eqb_neq in Hl. apply String.eqb_neq in Hs.
  rewrite Hl, Hs, Hc. cbn [orb].
  destruct (make_readable_returns quirk args fields row_separator
              (split delimiter (strip line)) w) as (lines & w' & -> & _).
  reflexivity.
Qed.

(** what the loop adds to the file for such a line and the lines after it *)
Lemma while_line_turn_output (line : string) (rest : list string) (w : world) :
  line <> ""%string ->
  strip line <> ""%string ->
  starts_with "#" (strip line) = false ->
  output_file (snd (while_line quirk args fields row_separator msg_separator
                               (line :: rest) w))
  = (output_file w
     ++ output_file (snd (make_readable quirk args fields row_separator
                                        (split delimiter (strip line)) start))
     ++ [msg_separator]
     ++ output_file (snd (while_line quirk args fields row_separator msg_separator
                                     rest start)))%list.
Proof.
  intros Hl Hs Hc. rewrite (while_line_turn line rest w Hl Hs Hc).
  rewrite (while_line_frame quirk args fields row_separator msg_separator rest).
  rewrite (make_readable_frame quirk args fields row_separator _ w).
  cbn [snd extend write output_file]. now rewrite <- !app_assoc.
Qed.

End OneLine.

(** C4 does not hold as stated: with [row_lines] set, the block of a line
    without a valid token is not the message separator alone, the row
    separator is written before it. *)
Lemma block_without_tokens_is_not_separator_only :
  ~ (forall (quirk : path_quirk) (args : Args) (fields : option Element)
            (line : string) (w : world),
        line <> ""%string ->
        strip line <> ""%string ->
        starts_with "#" (strip line) = false ->
        Forall (fun token => contains "=" token = false)
               (split delimiter (strip line)) ->
        output_file (snd (while_line quirk args fields build_row_separator
                                     build_msg_separator [line] w))
        = (output_file w ++ [build_msg_separator])%list).
Proof.
  intros H.
  assert (H1 : "junk"%string <> ""%string) by discriminate.
  assert (H2 : strip "junk" <> ""%string) by (vm_compute; discriminate).
  assert (H3 : Forall (fun token => contains "=" token = false)
                      (split delimiter (strip "junk"))).
  { repeat constructor. }
  specialize (H sample_quirk (mkArgs false true) (Some sample_fields) "junk" start
                H1 H2 eq_refl H3).
  vm_compute in H. discriminate H.
Qed.

(** C4, amended. For a line that is neither blank nor a comment the loop
    returns, and what it adds to the file is the block written by
    [make_readable] for the tokens of the line, then the message separator,
    then what the lines after it add.  The message separator is 100 periods
    and a newline, whatever [row_lines] is, and no string of the block is
    equal to it.  The block is the row separator when [row_lines] is set,
    followed by field lines, each with the row separator after it when
    [row_lines] is set; when no token of the line contains [=] it holds no
    field line: it is empty without [row_lines] and the one row separator
    with it. *)
Theorem message_separator_closes_every_block
        (quirk : path_quirk) (args : Args) (fields : option Element)
        (line : string) (rest : list string) (w : world) :
  line <> ""%string ->
  strip line <> ""%string ->
  starts_with "#" (strip line) = false ->
  let block :=
    output_file (snd (make_readable quirk args fields build_row_separator
                                    (split delimiter (strip line)) start)) in
  fst (while_line quirk args fields build_row_separator build_msg_separator
                  (line :: rest) w) = Ret tt
  /\ output_file (snd (while_line quirk args fields build_row_separator
                                  build_msg_separator (line :: rest) w))
     = (output_file w ++ block ++ [build_msg_separator]
          ++ output_file (snd (while_line quirk args fields build_row_separator
                                          build_msg_separator rest start)))%list
  /\ build_msg_separator = copies 100 "." ++ nl
  /\ ~ In build_msg_separator block
  /\ (exists lines,
         Forall is_field_line lines
         /\ block = (rule args build_row_separator
                       ++ ruled args build_row_separator lines)%list)
  /\ (Forall (fun token => contains "=" token = false)
             (split delimiter (strip line)) ->
      block = rule args build_row_separator).
Proof.
  intros Hl Hs Hc block.
  destruct (make_readable_returns quirk args fields build_row_separator
              (split delimiter (strip line)) start) as (lines & w' & Hm & Hf & Ho).
  assert (Hb : block = (rule args build_row_separator
                          ++ ruled args build_row_separator lines)%list).
  { unfold block. rewrite Hm. exact Ho. }
  split.
  { destruct (while_line_returns quirk args fields build_row_separator
                build_msg_separator (line :: rest) w) as (more & w1 & -> & _).
    reflexivity. }
  split; [exact (while_line_turn_output quirk args fields build_row_separator
                   build_msg_separator line rest w Hl Hs Hc)|].
  split; [exact msg_separator_periods|].
  split.
  { rewrite Hb. apply not_in_ruled; [exact Hf | apply separators_are_not_field_lines |].
    vm_compute. discriminate. }
  split; [exists lines; split; [exact Hf | exact Hb]|].
  intros Hall. unfold block, make_readable.
  rewrite for_tags_all_skipped by exact Hall.
  unfold rule. destruct (row_lines args); reflexivity.
Qed.

Lemma message_separator_closes_every_block_witness :
  wire ["8=FIX"; "54=1"] <> ""%string
  /\ strip (wire ["8=FIX"; "54=1"]) <> ""%string
  /\ starts_with "#" (strip (wire ["8=FIX"; "54=1"])) = false
  /\ output_file (snd (while_line sample_quirk (mkArgs true true) (Some sample_fields)
                                  build_row_separator build_msg_separator
                                  [wire ["8=FIX"; "54=1"]; wire ["junk"]] start))
     = [build_row_separator;
        field_line "8" "BeginString" "FIX" ""; build_row_separator;
        field_line "54" "Side" "1" ""; build_row_separator;
        build_msg_separator;
        build_row_separator;
        build_msg_separator].
Proof.
  assert (H1 : wire ["8=FIX"; "54=1"] <> ""%string)
    by (intros E; vm_compute in E; discriminate E).
  assert (H2 : strip (wire ["8=FIX"; "54=1"]) <> ""%string)
    by (intros E; vm_compute in E; discriminate E).
  split; [exact H1|]. split; [exact H2|]. split; [reflexivity|].
  exact (proj1 (proj2 (message_separator_closes_every_block sample_quirk
                         (mkArgs true true) (Some sample_fields)
                         (wire ["8=FIX"; "54=1"]) [wire ["junk"]] start
                         H1 H2 eq_refl))).
Defined.

(** C7. The loop strips a line that is neither blank nor a comment, splits
    it at the one control character U+0001 into its tokens in order (joining
    them with that character gives the stripped line back, and no token
    contains it), renders these tokens and writes the message separator.
    The tokens that do not contain [=] are passed over: the rendering is that
    of the tokens that contain one, so the others, the empty token among
    them, add no field line and no message. *)
Theorem tokens_without_eq_are_passed_over
        (quirk : path_quirk) (args : Args) (fields : option Element)
        (row_separator msg_separator : string)
        (line : string) (rest : list string) (w : world) :
  line <> ""%string ->
  strip line <> ""%string ->
  starts_with "#" (strip line) = false ->
  let tokens := split delimiter (strip line) in
  delimiter = ascii_of_nat 1
  /\ join delimiter tokens = strip line
  /\ Forall (fun token => contains delimiter token = false) tokens
  /\ while_line quirk args fields row_separator msg_separator [line] w
     = (Ret tt,
        write msg_separator
              (snd (make_readable quirk args fields row_separator
                                  (filter (contains "=") tokens) w)))
  /\ while_line quirk args fields row_separator msg_separator (line :: rest) w
     = while_line quirk args fields row_separator msg_separator rest
         (write msg_separator
                (snd (make_readable quirk args fields row_separator
                                    (filter (contains "=") tokens) w)))
  /\ contains "=" "" = false.
Proof.
  intros Hl Hs Hc tokens.
  assert (Hf : make_readable quirk args fields row_separator tokens w
               = make_readable quirk args fields row_separator
                               (filter (contains "=") tokens) w).
  { unfold make_readable. now rewrite for_tags_filter. }
  split; [reflexivity|].
  split; [apply join_split|].
  split; [apply split_pieces|].
  split; [|split; [|reflexivity]].
  - rewrite (while_line_turn quirk args fields row_separator msg_separator
               line [] w Hl Hs Hc).
    fold tokens. rewrite Hf. reflexivity.
  - rewrite (while_line_turn quirk args fields row_separator msg_separator
               line rest w Hl Hs Hc).
    fold tokens. rewrite Hf. reflexivity.
Qed.

Lemma tokens_without_eq_are_passed_over_witness :
  wire ["8=FIX"; "junk"; ""; "54=1"; ""] <> ""%string
  /\ strip (wire ["8=FIX"; "junk"; ""; "54=1"; ""]) <> ""%string
  /\ starts_with "#" (strip (wire ["8=FIX"; "junk"; ""; "54=1"; ""])) = false
  /\ split delimiter (strip (wire ["8=FIX"; "junk"; ""; "54=1"; ""]))
     = ["8=FIX"; "junk"; ""; "54=1"; ""]
  /\ while_line sample_quirk (mkArgs true false) (Some sample_fields)
                build_row_separator build_msg_separator
                [wire ["8=FIX"; "junk"; ""; "54=1"; ""]] start
     = (Ret tt,
        mkWorld [field_line "8" "BeginString" "FIX" "";
                 field_line "54" "Side" "1" "";
                 build_msg_separator] []).
Proof.
  assert (H1 : wire ["8=FIX"; "junk"; ""; "54=1"; ""] <> ""%string)
    by (intros E; vm_compute in E; discriminate E).
  assert (H2 : strip (wire ["8=FIX"; "junk"; ""; "54=1"; ""]) <> ""%string)
    by (intros E; vm_compute in E; discriminate E).
  split; [exact H1|]. split; [exact H2|]. split; [reflexivity|].
  split; [reflexivity|].
  exact (proj1 (proj2 (proj2 (proj2
           (tokens_without_eq_are_passed_over sample_quirk (mkArgs true false)
              (Some sample_fields) build_row_separator build_msg_separator
              (wire ["8=FIX"; "junk"; ""; "54=1"; ""]) [] start H1 H2 eq_refl))))).
Defined.

(** C8, amended. The delimiter of the split is the character U+0001.  The
    loop renders the tokens into which this character cuts the stripped line:
    joined with it they give the stripped line back, none of them contains
    it, and they are one more than its occurrences, so the line is cut at
    every occurrence.  The split leaves the line whole exactly when the line
    does not contain the character. *)
Theorem line_is_cut_at_every_delimiter
        (quirk : path_quirk) (args : Args) (fields : option Element)
        (row_separator msg_separator : string) (line : string) (w : world) :
  line <> ""%string ->
  strip line <> ""%string ->
  starts_with "#" (strip line) = false ->
  let tokens := split delimiter (strip line) in
  delimiter = "001"%char
  /\ while_line quirk args fields row_separator msg_separator [line] w
     = (Ret tt,
        write msg_separator
              (snd (make_readable quirk args fields row_separator tokens w)))
  /\ join delimiter tokens = strip line
  /\ Forall (fun token => contains delimiter token = false) tokens
  /\ List.length tokens = S (occurrences delimiter (strip line))
  /\ occurrences delimiter (strip line) = occurrences delimiter line
  /\ (tokens = [strip line] <-> contains delimiter line = false).
Proof.
  intros Hl Hs Hc tokens.
  split; [reflexivity|].
  split.
  { now rewrite (while_line_turn quirk args fields row_separator msg_separator
                   line [] w Hl Hs Hc). }
  split; [apply join_split|].
  split; [apply split_pieces|].
  split; [apply length_split|].
  split; [apply occurrences_strip; reflexivity|].
  rewrite <- (contains_strip delimiter line eq_refl). unfold tokens. split.
  - intros H. destruct (contains delimiter (strip line)) eqn:E; [|reflexivity].
    apply split_with in E. rewrite H in E. cbn in E. lia.
  - apply split_without.
Qed.

Lemma line_is_cut_at_every_delimiter_witness :
  wire ["8=FIX"; "54=2"] <> ""%string
  /\ strip (wire ["8=FIX"; "54=2"]) <> ""%string
  /\ starts_with "#" (strip (wire ["8=FIX"; "54=2"])) = false
  /\ while_line sample_quirk (mkArgs true false) (Some sample_fields)
                build_row_separator build_msg_separator
                [wire ["8=FIX"; "54=2"]] start
     = (Ret tt,
        mkWorld [field_line "8" "BeginString" "FIX" "";
                 field_line "54" "Side" "2" "";
                 build_msg_separator] [])
  /\ List.length (split delimiter (strip (wire ["8=FIX"; "54=2"]))) = 2.
Proof.
  assert (H1 : wire ["8=FIX"; "54=2"] <> ""%string)
    by (intros E; vm_compute in E; discriminate E).
  assert (H2 : strip (wire ["8=FIX"; "54=2"]) <> ""%string)
    by (intros E; vm_compute in E; discriminate E).
  split; [exact H1|]. split; [exact H2|]. split; [reflexivity|].
  destruct (line_is_cut_at_every_delimiter sample_quirk (mkArgs true false)
              (Some sample_fields) build_row_separator build_msg_separator
              (wire ["8=FIX"; "54=2"]) start H1 H2 eq_refl)
    as (_ & Hw & _ & _ & Hn & _).
  split; [exact Hw | exact Hn].
Defined.

(** ** The value of a pair *)

(** C9. In a token [a=b=c] whose tag [a] has a named field, the value that
    is written is [b], the piece between the first and the second [=]: the
    pass writes the field line of [a], the name and [b] with the annotation
    of [b], and what follows the second [=] is nowhere in it; the token is
    rendered as [a=b] is.  The token [a=] is rendered with the empty
    value. *)
Theorem value_is_the_second_piece
        (quirk : path_quirk) (args : Args) (fields : option Element)
        (row_separator : string) (a b c : string) (rest : list string)
        (tag_number : option string) (w : world)
        (field : Element) (tag_name : string) :
  contains "=" a = false ->
  contains "=" b = false ->
  find_attr quirk fields "field" "number" a = Ret (Some field) ->
  get field "name" = Some tag_name ->
  (forall enums w1,
      (if negb (hide_enums args) then get_enum_str quirk fields a b w
       else (Some "", w)) = (Some enums, w1) ->
      for_tags quirk args fields row_separator
               ((a ++ "=" ++ b ++ "=" ++ c) :: rest) tag_number w
      = for_tags quirk args fields row_separator rest (Some a)
                 (let w2 := write (field_line a tag_name b enums) w1 in
                  if row_lines args then write row_separator w2 else w2))
  /\ for_tags quirk args fields row_separator
              ((a ++ "=" ++ b ++ "=" ++ c) :: rest) tag_number w
     = for_tags quirk args fields row_separator ((a ++ "=" ++ b) :: rest) tag_number w
  /\ (forall enums w1,
         (if negb (hide_enums args) then get_enum_str quirk fields a "" w
          else (Some "", w)) = (Some enums, w1) ->
         for_tags quirk args fields row_separator ((a ++ "=") :: rest) tag_number w
         = for_tags quirk args fields row_separator rest (Some a)
                    (let w2 := write (field_line a tag_name "" enums) w1 in
                     if row_lines args then write row_separator w2 else w2)).
Proof.
  intros Ha Hb Hf Hn.
  assert (H3 : split "=" (a ++ "=" ++ b ++ "=" ++ c) = a :: b :: split "=" c).
  { change (a ++ "=" ++ b ++ "=" ++ c) with (a ++ String "=" (b ++ String "=" c)).
    rewrite (split_append _ _ _ Ha), (split_append _ _ _ Hb). reflexivity. }
  assert (H2 : split "=" (a ++ "=" ++ b) = [a; b]).
  { change (a ++ "=" ++ b) with (a ++ String "=" b).
    rewrite (split_append _ _ _ Ha), (split_without _ _ Hb). reflexivity. }
  assert (H1 : split "=" (a ++ "=") = [a; ""%string]).
  { change (a ++ "=") with (a ++ String "=" "").
    rewrite (split_append _ _ _ Ha). reflexivity. }
  pose proof (split_not_nil "=" c) as Hc.
  destruct (split "=" c) as [|p ps] eqn:Ec; [congruence|].
  split; [|split].
  - intros enums w1 He. cbn [for_tags]. rewrite H3.
    cbn [List.length Nat.eqb index nth_error].
    rewrite (render_resolved quirk args fields row_separator a (a :: b :: p :: ps)
               w w1 field tag_name b enums Hf Hn eq_refl He).
    reflexivity.
  - cbn [for_tags]. rewrite H3, H2.
    cbn [List.length Nat.eqb index nth_error].
    rewrite (render_pair quirk args fields row_separator a (a :: b :: p :: ps)
               [a; b] w); reflexivity.
  - intros enums w1 He. cbn [for_tags]. rewrite H1.
    cbn [List.length Nat.eqb index nth_error].
    rewrite (render_resolved quirk args fields row_separator a [a; ""%string]
               w w1 field tag_name "" enums Hf Hn eq_refl He).
    reflexivity.
Qed.

Lemma value_is_the_second_piece_witness :
  contains "=" "54" = false
  /\ contains "=" "1" = false
  /\ find_attr sample_quirk (Some sample_fields) "field" "number" "54"
     = Ret (Some sample_side)
  /\ get sample_side "name" = Some "Side"
  /\ get_enum_str sample_quirk (Some sample_fields) "54" "1" start
     = (Some (" (Buy)" ++ spaces 59 ++ "1 : Buy, 2 : Sell, "), start)
  /\ for_tags sample_quirk sample_args (Some sample_fields) build_row_separator
              ["54=1=c"] None start
     = (Ret tt, Some "54",
        mkWorld ["54    | Side                    | 1 (Buy)" ++ spaces 59
                   ++ "1 : Buy, 2 : Sell, " ++ nl] [])
  /\ for_tags sample_quirk (mkArgs true false) (Some sample_fields)
              build_row_separator ["54="] None start
     = (Ret tt, Some "54",
        mkWorld ["54    | Side                    | " ++ nl] []).
Proof.
  split; [reflexivity|]. split; [reflexivity|]. split; [reflexivity|].
  split; [reflexivity|]. split; [reflexivity|]. split.
  - exact (proj1 (value_is_the_second_piece sample_quirk sample_args
                    (Some sample_fields) build_row_separator "54" "1" "c" [] None
                    start sample_side "Side" eq_refl eq_refl eq_refl eq_refl)
                 _ start eq_refl).
  - exact (proj2 (proj2 (value_is_the_second_piece sample_quirk (mkArgs true false)
                           (Some sample_fields) build_row_separator "54" "1" "c" []
                           None start sample_side "Side"
                           eq_refl eq_refl eq_refl eq_refl))
                 "" start eq_refl).
Defined.

(** ** An unknown tag *)

(** C1, amended. When a pair of a line has a tag number without a field
    in the dictionary, the rendering of the line ends at that pair at the
    latest: the file holds what the pairs before it wrote and nothing more,
    so neither that pair nor any pair after it on the line is rendered.  When
    the pairs before it were all rendered, the message printed names its tag
    number; when one of them had raised, the rendering had ended there, and
    the line is rendered as if it stopped before the unknown tag. *)
Theorem unknown_tag_ends_the_line
        (quirk : path_quirk) (args : Args) (fields : option Element)
        (row_separator : string) (pre post : list string) (bad number : string)
        (w : world) :
  contains "=" bad = true ->
  index (split "=" bad) 0 = Ret number ->
  find_attr quirk fields "field" "number" number = Ret None ->
  output_file (snd (make_readable quirk args fields row_separator
                                  (pre ++ bad :: post) w))
  = output_file (snd (make_readable quirk args fields row_separator pre w))
  /\ make_readable quirk args fields row_separator (pre ++ bad :: post) w
     = make_readable quirk args fields row_separator (pre ++ [bad]) w
  /\ (forall bound w1,
         for_tags quirk args fields row_separator pre None
                  (if row_lines args then write row_separator w else w)
         = (Ret tt, bound, w1) ->
         make_readable quirk args fields row_separator (pre ++ bad :: post) w
         = (Ret tt, print ("tag number " ++ number ++ " readable Exception :- ")
                          (AttributeError "get") w1))
  /\ (forall e bound w1,
         for_tags quirk args fields row_separator pre None
                  (if row_lines args then write row_separator w else w)
         = (Raise e, bound, w1) ->
         make_readable quirk args fields row_separator (pre ++ bad :: post) w
         = make_readable quirk args fields row_separator pre w).
Proof.
  intros Hbad Hi Hf.
  assert (Hraise : forall e bound w1 (more : list string),
             for_tags quirk args fields row_separator pre None
                      (if row_lines args then write row_separator w else w)
             = (Raise e, bound, w1) ->
             make_readable quirk args fields row_separator (pre ++ more) w
             = make_readable quirk args fields row_separator pre w).
  { intros e bound w1 more Hpre. unfold make_readable.
    now rewrite for_tags_app, Hpre. }
  assert (Hret : forall bound w1 (more : list string),
             for_tags quirk args fields row_separator pre None
                      (if row_lines args then write row_separator w else w)
             = (Ret tt, bound, w1) ->
             make_readable quirk args fields row_separator (pre ++ bad :: more) w
             = (Ret tt, print ("tag number " ++ number ++ " readable Exception :- ")
                              (AttributeError "get") w1)).
  { intros bound w1 more Hpre.
    exact (make_readable_failure quirk args fields row_separator pre more bad number
             bound w w1 w1 (AttributeError "get") Hpre Hbad Hi
             (render_unknown quirk args fields row_separator number
                             (split "=" bad) w1 Hf)). }
  destruct (for_tags quirk args fields row_separator pre None
              (if row_lines args then write row_separator w else w))
    as [[[[]|e] bound] w1] eqn:Hpre.
  - split; [|split; [|split]].
    + rewrite (Hret bound w1 post eq_refl). unfold make_readable. now rewrite Hpre.
    + now rewrite (Hret bound w1 post eq_refl), (Hret bound w1 [] eq_refl).
    + intros bound' w1' E. inversion E; subst. exact (Hret bound' w1' post eq_refl).
    + intros e bound' w1' E. discriminate E.
  - split; [|split; [|split]].
    + now rewrite (Hraise e bound w1 (bad :: post) eq_refl).
    + now rewrite (Hraise e bound w1 (bad :: post) eq_refl),
        (Hraise e bound w1 [bad] eq_refl).
    + intros bound' w1' E. discriminate E.
    + intros e' bound' w1' _. exact (Hraise e bound w1 (bad :: post) eq_refl).
Qed.

Lemma unknown_tag_ends_the_line_witness :
  contains "=" "999=x" = true
  /\ index (split "=" "999=x") 0 = Ret "999"
  /\ find_attr sample_quirk (Some sample_fields) "field" "number" "999" = Ret None
  /\ for_tags sample_quirk sample_args (Some sample_fields) build_row_separator
              ["8=FIX"] None start
     = (Ret tt, Some "8", sample_written)
  /\ make_readable sample_quirk sample_args (Some sample_fields) build_row_separator
                   (["8=FIX"] ++ "999=x" :: ["54=1"]) start
     = (Ret tt, print "tag number 999 readable Exception :- " (AttributeError "get")
                      sample_written)
  /\ make_readable sample_quirk sample_args (Some sample_fields) build_row_separator
                   (["998=y"] ++ "999=x" :: ["54=1"]) start
     = make_readable sample_quirk sample_args (Some sample_fields) build_row_separator
                     ["998=y"] start.
Proof.
  split; [reflexivity|]. split; [reflexivity|]. split; [reflexivity|].
  split; [reflexivity|]. split.
  - exact (proj1 (proj2 (proj2
             (unknown_tag_ends_the_line sample_quirk sample_args (Some sample_fields)
                build_row_separator ["8=FIX"] ["54=1"] "999=x" "999" start
                eq_refl eq_refl eq_refl)))
             (Some "8") sample_written eq_refl).
  - exact (proj2 (proj2 (proj2
             (unknown_tag_ends_the_line sample_quirk sample_args (Some sample_fields)
                build_row_separator ["998=y"] ["54=1"] "999=x" "999" start
                eq_refl eq_refl eq_refl)))
             (AttributeError "get") (Some "998") start eq_refl).
Defined.

(** ** The run without a field table *)

Lemma index_hd (pieces : list string) (piece : string) :
  index pieces 0 = Ret piece -> hd ""%string pieces = piece.
Proof. destruct pieces; cbn; intros E; [discriminate E | now inversion E]. Qed.

(** without a field table the loop over the tokens stops at the first token
    that has an [=] *)
Lemma for_tags_without_fields (quirk : path_quirk) (args : Args)
      (row_separator : string) (tags : list string) (tag_number : option string)
      (w : world) :
  for_tags quirk args None row_separator tags tag_number w
  = match List.find (contains "=") tags with
    | Some token =>
        (Raise (AttributeError "find"), Some (hd ""%string (split "=" token)), w)
    | None => (Ret tt, tag_number, w)
    end.
Proof.
  revert tag_number. induction tags as [|tag rest IH]; intros tag_number;
    [reflexivity|].
  cbn [for_tags List.find]. rewrite split_single.
  destruct (contains "=" tag); cbn [negb]; [|apply IH].
  destruct (index_split_0 "=" tag) as [number Hn]. rewrite Hn.
  rewrite (index_hd _ _ Hn). reflexivity.
Qed.

Lemma while_line_without_fields (quirk : path_quirk) (args : Args)
      (row_separator msg_separator : string) (input_file : list string) (w : world) :
  while_line quirk args None row_separator msg_separator input_file w
  = (Ret tt,
     extend w (mkWorld
                 (flat_map (fun _ => bare_block args row_separator msg_separator)
                           (rendered_lines input_file))
                 (flat_map first_pair_report (rendered_lines input_file)))).
Proof.
  revert w. induction input_file as [|line rest IH]; intros w;
    cbn [while_line rendered_lines].
  - f_equal. symmetry. exact (extend_start_r w).
  - destruct (String.eqb line "").
    { f_equal. symmetry. exact (extend_start_r w). }
    destruct (String.eqb (strip line) "" || starts_with "#" (strip line)).
    { apply IH. }
    unfold make_readable. rewrite for_tags_without_fields.
    cbn [flat_map]. unfold first_pair_report at 1, bare_block at 1, rule.
    destruct (List.find (contains "=") (split delimiter (strip line))) as [token|];
      rewrite IH; f_equal; unfold extend, write, print;
      destruct (row_lines args); cbn [output_file stdout app];
      rewrite <- ?app_assoc; cbn [app]; rewrite ?app_nil_r; reflexivity.
Qed.

(** C5, amended. When the dictionary cannot be parsed or has no [fields]
    child, no field table is set and the run is not aborted.  [init_fields]
    prints its message when the document could not be parsed, and nothing
    when only the [fields] child is missing.  The input is then read to its
    end: every line that is neither blank nor a comment adds to the file the
    row separator (when [row_lines] is set) and the message separator, and no
    field line, and prints one message naming the tag number of its first
    token with an [=], when it has one. *)
Theorem run_without_field_table
        (quirk : path_quirk) (args : Args) (document : outcome Element)
        (input_file : list string) :
  unusable document ->
  fst (init_fields document start) = None
  /\ main quirk args document input_file
     = (Ret tt,
        mkWorld
          (flat_map (fun _ => bare_block args build_row_separator build_msg_separator)
                    (rendered_lines input_file))
          (load_report document
             ++ flat_map first_pair_report (rendered_lines input_file))%list).
Proof.
  intros Hu. destruct (init_fields_unusable document start Hu) as (Hn & _).
  split; [exact Hn|]. unfold main.
  assert (Hw : snd (init_fields document start) = mkWorld [] (load_report document)).
  { destruct document; reflexivity. }
  destruct (init_fields document start) as [fields w0]. cbn [fst snd] in Hn, Hw.
  subst fields w0. unfold parse_input_file.
  rewrite while_line_without_fields. reflexivity.
Qed.

Lemma run_without_field_table_witness :
  unusable (Raise ParseError)
  /\ main sample_quirk (mkArgs false true) (Raise ParseError)
          [wire ["junk"; "8=FIX"; "54=1"]; "# comment" ++ nl; wire ["junk"]]
     = (Ret tt,
        mkWorld [build_row_separator; build_msg_separator;
                 build_row_separator; build_msg_separator]
                [("init_fields Exception :- ", ParseError);
                 ("tag number 8 readable Exception :- ", AttributeError "find")]).
Proof.
  split; [exact I|].
  exact (proj2 (run_without_field_table sample_quirk (mkArgs false true)
                  (Raise ParseError)
                  [wire ["junk"; "8=FIX"; "54=1"]; "# comment" ++ nl; wire ["junk"]] I)).
Defined.
